(** * flask_tryton: transaction scoping, retry and URL converters

    A shallow embedding of [flask_tryton.py].  The module glues a web
    framework to an ORM runtime; both are external.  The embedding keeps
    the control flow of the Python code (decorators, [try]/[except],
    [with], the [for] and [while] loops) and replaces the two external
    collaborators by what the code observes of them:

    - the ambient state ([World]): the object [Transaction()] returns, the
      current request, the [testing_flask] configuration switch and the
      data owned by the application's handlers;
    - a trace of [Event]s: the calls the wrapper makes on the ORM runtime
      (cache hooks, [cursor.commit()], [run_task]), its entries into the
      transaction scope manager, and the calls of the wrapped handler.

    Exceptions are values of type [exn]; a computation ends in [Ok] or in
    [Raise].

    What is assumed of the collaborators:
    - a handler may change the whole ambient state and may raise anything;
      it does not write the trace;
    - the callables of the configuration ([readonly], [user], [context],
      the context callback) read the ambient state, do not change it and
      do not raise;
    - [Cache.clean], [Cache.resets], [cursor.commit()] and [run_task] are
      recorded and return; [run_task] queues nothing on the transaction it
      is drained from;
    - [Model.browse] returns record handles without touching the database,
      and [pool.get] raises [KeyError] on a model it does not know;
    - each domain error carries the [message] the wrapper reads;
    - the mappings the context callables return are not shared with the
      handler: what the wrapper writes into them is seen only through the
      context it passes on;
    - a configured context is taken as it is when an attempt starts.  The
      wrapper writes the request fields into its ['_request'] mapping in
      place, so a mapping that is one object for several calls keeps the
      fields of an earlier request.  The computations do not carry that
      object from one attempt to the next: [context_after] gives it, and a
      later call is the call with that context;
    - while the extension is set up, [config.update_etc],
      [config.getint], [Pool(database)] and [pool.init()] are recorded and
      return;
    - a text is a sequence of 8-bit characters; the digits among them are
      the ten ASCII digits.  [int] and [str] convert integers of any size:
      an interpreter's limit on the number of digits is not modelled, and
      the properties of texts read by [int] take texts of at most 640
      characters, the lowest limit an interpreter can be set to. *)

From stdpp Require Import gmap strings list pretty.
From Stdlib Require Import ZArith Lia Ascii.

(** ** Python values *)

(** Deferred record references ([_RecordsProxy], [_RecordProxy]): a model
    name and a list of ids; the constructor remembers the class. *)
Inductive _BaseProxy : Type :=
| RecordsProxy (model : string) (ids : list Z)
| RecordProxy (model : string) (ids : list Z).

Definition proxy_model (p : _BaseProxy) : string :=
  match p with RecordsProxy m _ | RecordProxy m _ => m end.

Definition proxy_ids (p : _BaseProxy) : list Z :=
  match p with RecordsProxy _ l | RecordProxy _ l => l end.

(** [_RecordsProxy.__init__]: [self.ids = list(ids)]. *)
Definition _RecordsProxy (model : string) (ids : list Z) : _BaseProxy :=
  RecordsProxy model ids.

(** [_RecordProxy.__init__]: [super().__init__(model, [id])]. *)
Definition _RecordProxy (model : string) (id : Z) : _BaseProxy :=
  RecordProxy model [id].

(** Values that travel through handlers and transaction contexts. *)
#[warnings="-register-all"]
Inductive value : Type :=
| VNone
| VBool (b : bool)
| VInt (z : Z)
| VStr (s : string)
| VList (l : list value)
| VDict (d : gmap string value)
| VRecord (model : string) (id : Z)
| VProxy (p : _BaseProxy).

Abbreviation dict := (gmap string value).

(** [d.update(other)]: the entries of [other] win. *)
Definition dict_update (d other : dict) : dict := other ∪ d.

(** Truth value of a dict: empty is false. *)
Definition dict_truthy (d : dict) : bool := negb (bool_decide (d = ∅)).

(** ** Exceptions *)

Inductive exn : Type :=
| DatabaseOperationalError (info : string)
| UserError (message : string)
| UserWarning (message : string)
| ConcurrencyException (message : string)
| BadRequest (description : string)
| NameError (name : string)
| AttributeError (attr : string)
| KeyError (key : string)
| IndexError
| ValueError
| OtherException (tag : string).

Inductive result (A : Type) : Type :=
| Ok (a : A)
| Raise (e : exn).
Arguments Ok {A} a.
Arguments Raise {A} e.

(** [isinstance(e, DatabaseOperationalError)]. *)
Definition is_conflict (e : exn) : bool :=
  match e with DatabaseOperationalError _ => true | _ => false end.

(** [isinstance(e, (UserError, UserWarning, ConcurrencyException))]. *)
Definition is_domain (e : exn) : bool :=
  match e with
  | UserError _ | UserWarning _ | ConcurrencyException _ => true
  | _ => false
  end.

(** [e.message] of a domain error. *)
Definition message (e : exn) : string :=
  match e with
  | UserError m | UserWarning m | ConcurrencyException m => m
  | _ => ""
  end.

(** ** Ambient state *)

Record Request : Type := mkRequest {
  method : string;
  remote_addr : option string;
  HTTP_HOST : option string;      (* [request.environ.get('HTTP_HOST')] *)
  scheme : string;
  is_secure : bool
}.

(** The attributes of the object returned by [Transaction()] that the
    module reads: [user] ([None] before a transaction is started),
    [readonly], whether it has a [cursor] attribute, and [tasks]. *)
Record Transaction : Type := mkTransaction {
  user : option Z;
  readonly : bool;
  cursor : bool;
  tasks : list Z
}.

Record World : Type := mkWorld {
  testing_flask : bool;           (* truth of [config.get('web', 'testing_flask')] *)
  request : option Request;       (* [None]: no request bound *)
  txn : Transaction;              (* the object [Transaction()] returns *)
  store : Z                       (* data owned by the handlers *)
}.

(** A configuration field is a literal or a zero-argument callable
    ([get_value]); callables read the ambient state. *)
Inductive valprov (A : Type) : Type :=
| Literal (a : A)
| Callable (f : World -> A).
Arguments Literal {A} a.
Arguments Callable {A} f.

(** The [Tryton] extension object and the application configuration. *)
Record Tryton : Type := mkTryton {
  context_callback : option (World -> dict);
  database_retry : Z;
  pool : list string              (* names [pool.get] knows *)
}.

Record App : Type := mkApp {
  extension : Tryton;             (* [current_app.extensions['Tryton']] *)
  TRYTON_DATABASE : string;
  TRYTON_USER : Z;
  trytond_version : list Z
}.

(** ** Trace *)

Inductive Event : Type :=
| EvEnter (database : string) (usr : Z) (ro : option bool) (context : option dict)
| EvCacheClean (database : string)
| EvCacheResets (database : string)
| EvHandler (r : result value) (t : Transaction)
| EvCommit
| EvRunTask (task_id : Z).

(** ** Computations: ambient state, trace, exceptions *)

Record Run (A : Type) : Type := mkRun {
  outcome : result A;
  final : World;
  trace : list Event
}.
Arguments mkRun {A} outcome final trace.
Arguments outcome {A} r.
Arguments final {A} r.
Arguments trace {A} r.

Definition M (A : Type) : Type := World -> Run A.

Definition ret {A} (a : A) : M A := fun w => mkRun (Ok a) w [].

Definition raise {A} (e : exn) : M A := fun w => mkRun (Raise e) w [].

Definition bind {A B} (m : M A) (k : A -> M B) : M B := fun w =>
  let r := m w in
  match outcome r with
  | Ok a => let r' := k a (final r) in
            mkRun (outcome r') (final r') (trace r ++ trace r')
  | Raise e => mkRun (Raise e) (final r) (trace r)
  end.

(** [try m except Exception as e: h e]. *)
Definition try_except {A} (m : M A) (h : exn -> M A) : M A := fun w =>
  let r := m w in
  match outcome r with
  | Ok a => r
  | Raise e => let r' := h e (final r) in
               mkRun (outcome r') (final r') (trace r ++ trace r')
  end.

Definition get : M World := fun w => mkRun (Ok w) w [].

Definition emit (ev : Event) : M unit := fun w => mkRun (Ok tt) w [ev].

Declare Scope py_scope.
Delimit Scope py_scope with py.
Notation "x <- m ;; k" := (bind m (fun x => k))
  (at level 100, m at next level, right associativity) : py_scope.
Notation "m ;; k" := (bind m (fun _ => k))
  (at level 100, right associativity) : py_scope.
Open Scope py_scope.

Definition when (b : bool) (m : M unit) : M unit := if b then m else ret tt.

Fixpoint mapM_py {A B} (f : A -> M B) (l : list A) : M (list B) :=
  match l with
  | [] => ret []
  | a :: l' => b <- f a ;; bs <- mapM_py f l' ;; ret (b :: bs)
  end.

(** ** Python built-ins used by the converters *)

Definition digit_of (c : ascii) : option Z :=
  let n := Ascii.nat_of_ascii c in
  if (48 <=? n)%nat && (n <=? 57)%nat then Some (Z.of_nat (n - 48)) else None.

Fixpoint int_digits (acc : Z) (s : string) : option Z :=
  match s with
  | EmptyString => Some acc
  | String c s' =>
      match digit_of c with
      | Some d => int_digits (10 * acc + d)%Z s'
      | None => None
      end
  end.

(** [int(s)] for a non-empty run of ASCII decimal digits.  [None] is the
    [ValueError] of the empty text; it also stands for every other text
    outside that language, some of which [int] converts (a sign, blanks
    around the digits, underscores between them, decimal digits of other
    scripts): nothing below rests on [None] for those. *)
Definition py_int (s : string) : option Z :=
  match s with
  | EmptyString => None
  | _ => int_digits 0 s
  end.

(** [str(n)] for an integer. *)
Definition py_str (n : Z) : string := pretty n.

(** An ASCII decimal digit: one of the characters [\d] matches, and the
    only ones among 8-bit characters. *)
Definition is_digit (c : ascii) : bool :=
  match digit_of c with Some _ => true | None => false end.

(** A run of ASCII decimal digits. *)
Fixpoint digits (s : string) : bool :=
  match s with
  | EmptyString => true
  | String c s' => is_digit c && digits s'
  end.

(** [s.split(',')]: never empty, keeps empty fields. *)
Fixpoint split_comma_aux (cur : string) (s : string) : list string :=
  match s with
  | EmptyString => [String.rev cur]
  | String c s' =>
      if Ascii.eqb c ","%char
      then String.rev cur :: split_comma_aux EmptyString s'
      else split_comma_aux (String c cur) s'
  end.

Definition split_comma (s : string) : list string := split_comma_aux EmptyString s.

(** [','.join(l)]. *)
Definition join_comma (l : list string) : string := String.concat "," l.

(** ** URL converters *)

Module RecordConverter.

(** The texts of ASCII characters that [regex = r'\d+'] matches in
    full: the non-empty runs of ASCII digits.  The pattern also matches
    runs with decimal digits of other scripts, which are not of this
    form. *)
Definition regex (value : string) : bool :=
  match value with
  | EmptyString => false
  | _ => digits value
  end.

(** [to_python]: [_RecordProxy(self.model, int(value))]. *)
Definition to_python (model : string) (value : string) : option _BaseProxy :=
  id ← py_int value; Some (_RecordProxy model id).

(** [to_url]: [str(int(value))], where [int(value)] is
    [_RecordProxy.__int__], i.e. [self.ids[0]]; a [_RecordsProxy] has no
    [__int__], and [int] raises [TypeError] on it ([None]). *)
Definition to_url (value : _BaseProxy) : option string :=
  match value with
  | RecordProxy _ ids => id ← head ids; Some (py_str id)
  | RecordsProxy _ _ => None
  end.

End RecordConverter.

Module RecordsConverter.

(** The texts of ASCII characters that [regex = r'\d+(,\d+)*'] matches
    in full: non-empty runs of ASCII digits separated by single commas;
    [fresh] holds at the start of a field, where a digit is required.  The
    pattern also matches fields with decimal digits of other scripts,
    which are not of this form. *)
Fixpoint regex_from (fresh : bool) (value : string) : bool :=
  match value with
  | EmptyString => negb fresh
  | String c s' =>
      if is_digit c then regex_from false s'
      else if Ascii.eqb c ","%char then negb fresh && regex_from true s'
      else false
  end.

Definition regex (value : string) : bool := regex_from true value.

(** [to_python]: [_RecordsProxy(self.model, map(int, value.split(',')))]. *)
Definition to_python (model : string) (value : string) : option _BaseProxy :=
  ids ← mapM py_int (split_comma value); Some (_RecordsProxy model ids).

(** [to_url]: [','.join(map(str, map(int, value)))]; iterating a proxy
    yields its ids. *)
Definition to_url (value : _BaseProxy) : string :=
  join_comma (map py_str (proxy_ids value)).

End RecordsConverter.

(** ** The transaction scope manager of this fork *)

Definition truthy_int (o : option Z) : bool :=
  match o with Some u => negb (u =? 0)%Z | None => false end.

(** [not config.get('web', 'testing_flask') or not Transaction().user]. *)
Definition need_new_transaction (w : World) : bool :=
  negb (testing_flask w) || negb (truthy_int (user (txn w))).

(** [conditional_transaction_for_tests], as a scope around
    [body].  The call is recorded with the arguments it was given; the
    function itself never reads them.  When a new transaction is needed
    the function evaluates [Transaction().start(database, user,
    readonly=True)], whose names [database] and [user] are bound neither
    in the function nor in the module: the scope fails with a
    [NameError] before [body] starts.  Otherwise [body] runs on the
    object [Transaction()] returns, and leaving the scope does nothing. *)
Definition conditional_transaction_for_tests {A}
    (database : string) (usr : Z) (ro : option bool) (context : option dict)
    (body : M A) : M A :=
  emit (EvEnter database usr ro context) ;;
  w <- get ;;
  if need_new_transaction w then raise (NameError "database") else body.

(** ** [retry_transaction] *)

Fixpoint countdown (n : nat) : list Z :=
  match n with
  | O => [0%Z]
  | S n' => Z.of_nat n :: countdown n'
  end.

(** [range(retry, -1, -1)]. *)
Definition range_down (retry : Z) : list Z :=
  if (retry <? 0)%Z then [] else countdown (Z.to_nat retry).

(** The [for count in ...] loop of [retry_transaction.wrapper]; falling
    out of the loop returns [None]. *)
Fixpoint retry_loop (func : M value) (counts : list Z) : M value :=
  match counts with
  | [] => ret VNone
  | count :: rest =>
      try_except func (fun e =>
        if is_conflict e then
          w <- get ;;
          if negb (count =? 0)%Z && negb (readonly (txn w))
          then retry_loop func rest
          else raise e
        else raise e)
  end.

Definition retry_transaction (app : App) (func : M value) : M value :=
  let tryton := extension app in
  let retry := database_retry tryton in
  retry_loop func (range_down retry).

(** ** [Tryton.transaction] *)

(** [Tryton._readonly]. *)
Definition _readonly (w : World) : bool :=
  negb (match request w with
        | Some r => bool_decide (method r ∈ ["PUT"; "POST"; "DELETE"; "PATCH"])
        | None => false
        end).

(** [get_value]: [value() if callable(value) else value]. *)
Definition get_value {A} (v : valprov A) : M A :=
  w <- get ;; ret (match v with Literal a => a | Callable f => f w end).

(** [_RecordsProxy.__call__] and [_RecordProxy.__call__]:
    [Model.browse(self.ids)], and its first element for a single record. *)
Definition proxy_call (tryton : Tryton) (p : _BaseProxy) : M value :=
  if bool_decide (proxy_model p ∈ pool tryton) then
    let records := map (VRecord (proxy_model p)) (proxy_ids p) in
    match p with
    | RecordsProxy _ _ => ret (VList records)
    | RecordProxy _ _ =>
        match records with
        | r :: _ => ret r
        | [] => raise IndexError
        end
    end
  else raise (KeyError (proxy_model p)).

(** [instanciate]. *)
Definition instanciate (tryton : Tryton) (v : value) : M value :=
  match v with
  | VProxy p => proxy_call tryton p
  | _ => ret v
  end.

(** A wrapped handler: positional and keyword arguments, and the ambient
    state it may change. *)
Definition Handler : Type :=
  list value -> list (string * value) -> World -> World * result value.

Definition call (func : Handler) (args : list value)
    (kwargs : list (string * value)) : M value := fun w =>
  let '(w', r) := func args kwargs w in
  mkRun r w' [EvHandler r (txn w')].

Definition opt_str (o : option string) : value :=
  match o with Some s => VStr s | None => VNone end.

(** The dict of request fields, [{}] when no request is bound. *)
Definition request_fields (w : World) : dict :=
  match request w with
  | Some r =>
      <["remote_addr" := opt_str (remote_addr r)]>
      (<["http_host" := opt_str (HTTP_HOST r)]>
      (<["scheme" := VStr (scheme r)]>
      (<["is_secure" := VBool (is_secure r)]> ∅)))
  | None => ∅
  end.

(** [transaction_context.setdefault('_request', {}).update(...)]: the
    context the attempt goes on with.  The update is made in place;
    [context_after] below gives what it leaves in the decorator's own
    context object. *)
Definition add_request (transaction_context : dict) : M dict :=
  w <- get ;;
  match transaction_context !! "_request" with
  | None =>
      ret (<["_request" := VDict (dict_update ∅ (request_fields w))]> transaction_context)
  | Some (VDict d) =>
      ret (<["_request" := VDict (dict_update d (request_fields w))]> transaction_context)
  | Some _ => raise (AttributeError "update")
  end.

(** Python tuple comparison [a < b] on tuples of integers. *)
Fixpoint tuple_lt (a b : list Z) : bool :=
  match a, b with
  | [], [] => false
  | [], _ :: _ => true
  | _ :: _, [] => false
  | x :: a', y :: b' => (x <? y)%Z || ((x =? y)%Z && tuple_lt a' b')
  end.

(** Truth value of the decorator's [context] argument. *)
Definition context_truthy (context : option (valprov dict)) : bool :=
  match context with
  | None => false
  | Some (Literal d) => dict_truthy d
  | Some (Callable _) => true
  end.

(** [get_value(context) or {}]. *)
Definition context_value (context : option (valprov dict)) : M dict :=
  match context with
  | None => ret ∅
  | Some c => get_value c
  end.

(** [list.pop()]: removes and returns the last element. *)
Definition pop (l : list Z) : option (list Z * Z) :=
  match rev l with
  | [] => None
  | x :: r => Some (rev r, x)
  end.

Definition set_tasks (l : list Z) : M unit := fun w =>
  let t := txn w in
  mkRun (Ok tt)
    (mkWorld (testing_flask w) (request w)
       (mkTransaction (user t) (readonly t) (cursor t) l) (store w)) [].

(** [while transaction.tasks: run_task(tryton.pool, transaction.tasks.pop())];
    [run_task] is recorded. *)
Fixpoint drain (fuel : nat) : M unit :=
  match fuel with
  | O => ret tt
  | S n =>
      w <- get ;;
      match pop (tasks (txn w)) with
      | None => ret tt
      | Some (rest, task_id) =>
          set_tasks rest ;; emit (EvRunTask task_id) ;; drain n
      end
  end.

Definition run_tasks : M unit :=
  w <- get ;; drain (length (tasks (txn w))).

(** What the [except] clauses of the wrapper raise for an error [e]:
    a database conflict is re-raised, a domain error becomes a
    [BadRequest] carrying its message, anything else is re-raised. *)
Definition translate (e : exn) : exn :=
  if is_conflict e then e
  else if is_domain e then BadRequest (message e)
  else e.

Definition on_error {A} (e : exn) : M A := raise (translate e).

(** The decorator's [readonly] argument resolved at call time. *)
Definition resolve_readonly (readonly : option (valprov bool)) : M bool :=
  match readonly with
  | None => get_value (Callable _readonly)
  | Some r => get_value r
  end.

(** The decorator's [user] argument resolved at call time. *)
Definition resolve_user (app : App) (user : option (valprov Z)) : M Z :=
  match user with
  | None => get_value (Literal (TRYTON_USER app))
  | Some u => get_value u
  end.

(** The construction of [transaction_context]: the callback's context
    updated with the decorator's, then the ['_request'] entry. *)
Definition build_context (app : App) (transaction_user : Z)
    (context : option (valprov dict)) : M dict :=
  let tryton := extension app in
  let database := TRYTON_DATABASE app in
  transaction_context <-
    (if bool_decide (is_Some (context_callback tryton)) || context_truthy context
     then
       conditional_transaction_for_tests database transaction_user (Some true) None
         (transaction_context <-
            match context_callback tryton with
            | Some cb => get_value (Callable cb)
            | None => ret ∅
            end ;;
          c <- context_value context ;;
          ret (dict_update transaction_context c))
     else ret ∅) ;;
  add_request transaction_context.

(** The statements inside the transaction scope: the [try] statement
    (materialisation of the arguments, the handler, the commit) with its
    [except] clauses, then the cache reset of old runtimes. *)
Definition scope_body (app : App) (is_readonly : bool)
    (func : Handler) (args : list value) (kwargs : list (string * value))
    : M value :=
  let tryton := extension app in
  let database := TRYTON_DATABASE app in
  result <-
    try_except
      (args' <- mapM_py (instanciate tryton) args ;;
       kwargs' <- mapM_py (fun nv => v' <- instanciate tryton (snd nv) ;;
                                     ret (fst nv, v')) kwargs ;;
       result <- call func args' kwargs' ;;
       w <- get ;;
       when (cursor (txn w) && negb is_readonly) (emit EvCommit) ;;
       ret result)
      on_error ;;
  when (tuple_lt (trytond_version app) [5; 1]%Z)
    (emit (EvCacheResets database)) ;;
  ret result.

(** [Tryton.transaction(readonly, user, context)(func)], before
    [retry_transaction] is applied: one attempt. *)
Definition wrapper (app : App)
    (readonly : option (valprov bool)) (user : option (valprov Z))
    (context : option (valprov dict))
    (func : Handler) (args : list value) (kwargs : list (string * value))
    : M value :=
  let database := TRYTON_DATABASE app in
  when (tuple_lt (trytond_version app) [5; 1]%Z)
    (conditional_transaction_for_tests database 0 None None
       (emit (EvCacheClean database))) ;;
  transaction_user <- resolve_user app user ;;
  is_readonly <- resolve_readonly readonly ;;
  transaction_context <- build_context app transaction_user context ;;
  result <-
    conditional_transaction_for_tests database transaction_user
      (Some is_readonly) (Some transaction_context)
      (scope_body app is_readonly func args kwargs) ;;
  run_tasks ;;
  ret result.

(** [Tryton.transaction]: the attempt under [retry_transaction]. *)
Definition transaction (app : App)
    (readonly : option (valprov bool)) (user : option (valprov Z))
    (context : option (valprov dict))
    (func : Handler) (args : list value) (kwargs : list (string * value))
    : M value :=
  retry_transaction app (wrapper app readonly user context func args kwargs).

Definition tryton_transaction := transaction.

(** ** Observations on traces *)

(** Events of the set-up of an attempt: scope entries and cache cleaning. *)
Definition is_setup (ev : Event) : bool :=
  match ev with
  | EvEnter _ _ _ _ | EvCacheClean _ => true
  | _ => false
  end.

(** Set-up events that carry no transaction context: cache cleaning, and the
    scopes around it and around the context callback. *)
Definition is_plain_setup (ev : Event) : bool :=
  match ev with
  | EvEnter _ _ _ None | EvCacheClean _ => true
  | _ => false
  end.

(** Number of [cursor.commit()] calls. *)
Definition is_commit (ev : Event) : bool :=
  match ev with EvCommit => true | _ => false end.

Definition commits (l : list Event) : nat :=
  length (List.filter is_commit l).

Definition is_handler (ev : Event) : bool :=
  match ev with EvHandler _ _ => true | _ => false end.

(** Number of executions of the handler body. *)
Definition handler_runs (l : list Event) : nat :=
  length (List.filter is_handler l).

Definition is_task (ev : Event) : bool :=
  match ev with EvRunTask _ => true | _ => false end.

Definition is_return (ev : Event) : bool :=
  match ev with EvHandler (Ok _) _ => true | _ => false end.

(** Task ids passed to [run_task], in call order. *)
Definition submitted (l : list Event) : list Z :=
  omap (λ ev, match ev with EvRunTask i => Some i | _ => None end) l.

(** The ambient state once the task queue has been drained. *)
Definition drained (w : World) : World :=
  mkWorld (testing_flask w) (request w)
    (mkTransaction (user (txn w)) (readonly (txn w)) (cursor (txn w)) [])
    (store w).

(** What the wrapper does after the handler has returned. *)
Definition epilogue (resets : list Event) (is_readonly : bool)
    (t : Transaction) : list Event :=
  (if cursor t && negb is_readonly then [EvCommit] else [])
  ++ resets ++ map EvRunTask (rev (tasks t)).

(** The three ways an attempt can go. *)
Inductive attempt_shape : Run value -> Prop :=
| attempt_aborts pre e w :
    Forall (λ ev, is_setup ev = true) pre -> pre ≠ [] ->
    is_conflict e = false ->
    attempt_shape (mkRun (Raise e) w pre)
| attempt_raises pre e w :
    Forall (λ ev, is_setup ev = true) pre ->
    attempt_shape
      (mkRun (Raise (translate e)) w (pre ++ [EvHandler (Raise e) (txn w)]))
| attempt_returns pre db u ro ctx v w resets :
    Forall (λ ev, is_setup ev = true) pre ->
    (resets = [] ∨ resets = [EvCacheResets db]) ->
    attempt_shape
      (mkRun (Ok v) (drained w)
         (pre ++ EvEnter db u (Some ro) (Some ctx)
              :: EvHandler (Ok v) (txn w) :: epilogue resets ro (txn w))).

(** Retried attempts, each ending in a conflict raised by the handler on
    a transaction that is not read-only, then a last attempt. *)
Inductive attempts_shape : Run value -> Prop :=
| attempts_last r :
    attempt_shape r -> attempts_shape r
| attempts_retry pre info t r :
    Forall (λ ev, is_setup ev = true) pre ->
    readonly t = false ->
    attempts_shape r ->
    attempts_shape
      (mkRun (outcome r) (final r)
         ((pre ++ [EvHandler (Raise (DatabaseOperationalError info)) t])
          ++ trace r)).

(** An invocation: attempts, or none at all when the retry count is
    negative. *)
Inductive invocation_shape : Run value -> Prop :=
| invocation_none w :
    invocation_shape (mkRun (Ok VNone) w [])
| invocation_attempts r :
    attempts_shape r -> invocation_shape r.

(** The events of retried attempts. *)
Definition retried_event (ev : Event) : Prop :=
  match ev with
  | EvEnter _ _ _ _ | EvCacheClean _ => True
  | EvHandler (Raise (DatabaseOperationalError _)) t => readonly t = false
  | _ => False
  end.

(** [n] attempts in a row end in a database conflict on a transaction that
    is not read-only, and the next one returns [v]. *)
Inductive conflicts_then_ok (func : M value) : nat -> World -> value -> Prop :=
| cto_ok w v :
    outcome (func w) = Ok v -> conflicts_then_ok func 0 w v
| cto_conflict n w info v :
    outcome (func w) = Raise (DatabaseOperationalError info) ->
    readonly (txn (final (func w))) = false ->
    conflicts_then_ok func n (final (func w)) v ->
    conflicts_then_ok func (S n) w v.

(** The context the configuration supplies before the request fields are
    merged in: the callback's context updated with the decorator's, or
    [{}] when neither is set. *)
Definition configured_context (app : App) (context : option (valprov dict))
    (w : World) : dict :=
  if bool_decide (is_Some (context_callback (extension app)))
     || context_truthy context
  then
    dict_update
      (match context_callback (extension app) with
       | Some cb => cb w
       | None => ∅
       end)
      (match context with
       | None => ∅
       | Some (Literal d) => d
       | Some (Callable f) => f w
       end)
  else ∅.

(** The mapping a context holds under ['_request'], [{}] if it has none. *)
Definition supplied_request (c : dict) : dict :=
  match c !! "_request" with
  | Some (VDict d) => d
  | _ => ∅
  end.

(** ** Sample applications, states and handlers *)

(** A configured context that already carries a ['_request'] mapping. *)
Definition tenant_request : dict := <["company" := VInt 1]> ∅.

Definition tenant_context : dict := <["_request" := VDict tenant_request]> ∅.

Definition sample_request : Request :=
  mkRequest "POST" (Some "10.0.0.7") (Some "shop.example") "https" true.


(** An application on a current runtime (no cache hooks), without a context
    callback, with [retry] database retries. *)
Definition sample_app (retry : Z) : App :=
  mkApp (mkTryton None retry ["res.user"]) "db" 0 [5; 2]%Z.

(** A started transaction of user 1, as the test mode provides it. *)
Definition sample_txn (ro cur : bool) : Transaction :=
  mkTransaction (Some 1%Z) ro cur [].

Definition sample_world (ro cur : bool) : World :=
  mkWorld true None (sample_txn ro cur) 0.

(** A handler that meets a database conflict on its first [n] executions
    (it counts them in [store]) and then returns the count. *)
Definition flaky (n : Z) : Handler := fun _ _ w =>
  (mkWorld (testing_flask w) (request w) (txn w) (store w + 1),
   if (store w <? n)%Z
   then Raise (DatabaseOperationalError "could not serialize access")
   else Ok (VInt (store w))).

(** A handler that queues background tasks and returns [None]. *)
Definition queues (ids : list Z) : Handler := fun _ _ w =>
  let t := txn w in
  (mkWorld (testing_flask w) (request w)
     (mkTransaction (user t) (readonly t) (cursor t) (tasks t ++ ids)) (store w),
   Ok VNone).

(** A handler that raises [e]. *)
Definition fails (e : exn) : Handler := fun _ _ w => (w, Raise e).

(** ** Further observations *)

(** The first [n] attempts end in a database conflict on a transaction that
    is not read-only, and so does the attempt after them, with conflict
    [info], leaving the ambient state [w']. *)
Inductive conflicts_only (func : M value) : nat -> World -> string -> World -> Prop :=
| co_last w info :
    outcome (func w) = Raise (DatabaseOperationalError info) ->
    conflicts_only func 0 w info (final (func w))
| co_more n w info info' w' :
    outcome (func w) = Raise (DatabaseOperationalError info) ->
    readonly (txn (final (func w))) = false ->
    conflicts_only func n (final (func w)) info' w' ->
    conflicts_only func (S n) w info' w'.

(** Calls of the cache hooks. *)
Definition is_cache (ev : Event) : bool :=
  match ev with
  | EvCacheClean _ | EvCacheResets _ => true
  | _ => false
  end.

(** The decorator's context at call time, [get_value(context) or {}]. *)
Definition decorator_context (context : option (valprov dict)) (w : World) : dict :=
  match context with
  | None => ∅
  | Some (Literal d) => d
  | Some (Callable f) => f w
  end.

(** The context of the callback registered with [default_context], [{}]
    without one. *)
Definition callback_context (app : App) (w : World) : dict :=
  match context_callback (extension app) with
  | Some cb => cb w
  | None => ∅
  end.

(** The keys the wrapper writes into the ['_request'] mapping. *)
Definition request_keys : list string :=
  ["remote_addr"; "http_host"; "scheme"; "is_secure"].

(** What [__call__] returns for a proxy whose model the pool knows: the
    records of a [_RecordsProxy] in the order of its ids, the first record
    of a [_RecordProxy]; any other value is passed as it is. *)
Definition materialise (v : value) : value :=
  match v with
  | VProxy (RecordsProxy m ids) => VList (map (VRecord m) ids)
  | VProxy (RecordProxy m (i :: _)) => VRecord m i
  | _ => v
  end.

(** A value [instanciate] can turn into records: any value that is not a
    proxy, and a proxy of a model the pool knows (with an id, for a single
    record). *)
Definition materialisable (tryton : Tryton) (v : value) : Prop :=
  match v with
  | VProxy (RecordsProxy m _) => m ∈ pool tryton
  | VProxy (RecordProxy m ids) => m ∈ pool tryton ∧ ids ≠ []
  | _ => True
  end.

(** ** Setting the extension up: [Tryton.__init__] and [Tryton.init_app] *)

(** [d.setdefault(k, v)]: the value now under [k], and the mapping. *)
Definition setdefault (k : string) (v : value) (d : dict) : value * dict :=
  match d !! k with
  | Some x => (x, d)
  | None => (v, <[k := v]> d)
  end.

Module Setup.

(** The extension object while it is set up: [database_retry] is [None]
    and the attribute [pool] does not exist before [init_app]; the pool
    is known by the database it was created with ([None]: the database of
    the running transaction). *)
Record Tryton : Type := mkTryton {
  context_callback : option (World -> dict);
  database_retry : option Z;
  _configure_jinja : bool;
  pool : option value
}.

(** What [app.extensions] holds under a name. *)
Inductive extension_object : Type :=
| TrytonExtension (tryton : Tryton)
| ForeignExtension (name : string).

(** The Flask application as [init_app] uses it.  Converter classes and
    the bound methods registered as template filters are known by their
    names. *)
Record Flask : Type := mkFlask {
  config : dict;
  extensions : option (gmap string extension_object);  (* [None]: no attribute *)
  converters : gmap string string;                     (* [app.url_map.converters] *)
  filters : gmap string string                         (* [app.jinja_env.filters] *)
}.

(** Calls on the collaborators: [config.update_etc], [Pool(database)],
    what the transaction scope records, and [pool.init()]. *)
Inductive Call : Type :=
| update_etc (configfile : value)
| Pool (database : value)
| in_scope (ev : Event)
| pool_init (database : value).

Record Result : Type := mkResult {
  raised : option exn;
  self : Tryton;
  app : Flask;
  calls : list Call
}.

(** The scope manager never reads its arguments; the call is recorded
    under the database and the user when they are a string and an
    integer. *)
Definition database_name (v : value) : string :=
  match v with VStr s => s | _ => EmptyString end.

Definition user_id (v : value) : Z :=
  match v with VInt n => n | _ => 0%Z end.

(** Whether a transaction is started: [Transaction().database], like
    [Transaction().user], is [None] until one is. *)
Definition started (t : Transaction) : bool :=
  match user t with Some _ => true | None => false end.

(** Whether [Pool(database)] fails: for [None] it reads
    [Transaction().database.name], an [AttributeError] when no transaction
    is started; for any other value it returns. *)
Definition pool_fails (database : value) (w : World) : bool :=
  match database with
  | VNone => negb (started (txn w))
  | _ => false
  end.

(** The database [init_app] reads from the configuration. *)
Definition configured_database (app : Flask) : value :=
  default VNone (config app !! "TRYTON_DATABASE").

(** [Tryton.init_app]; [retry] is what [config.getint('database', 'retry')]
    returns once [config.update_etc(configfile)] has returned. *)
Definition init_app (retry : Z) (self : Tryton) (app : Flask) (w : World)
    : Result :=
  let '(database, config1) := setdefault "TRYTON_DATABASE" VNone (config app) in
  let '(user, config2) := setdefault "TRYTON_USER" (VInt 0) config1 in
  let '(configfile, config3) := setdefault "TRYTON_CONFIG" VNone config2 in
  if pool_fails database w then
    mkResult (Some (AttributeError "name"))
      (mkTryton (context_callback self) (Some retry) (_configure_jinja self)
         (pool self))
      (mkFlask config3 (extensions app) (converters app) (filters app))
      [update_etc configfile; Pool database]
  else
  let self := mkTryton (context_callback self) (Some retry)
                (_configure_jinja self) (Some database) in
  let scope :=
    conditional_transaction_for_tests (database_name database) (user_id user)
      (Some true) None (ret tt) w in
  let before :=
    [update_etc configfile; Pool database] ++ map in_scope (trace scope) in
  match outcome scope with
  | Raise e =>
      mkResult (Some e) self
        (mkFlask config3 (extensions app) (converters app) (filters app)) before
  | Ok _ =>
      mkResult None self
        (mkFlask config3
           (Some (<["Tryton" := TrytonExtension self]>
                    (default ∅ (extensions app))))
           (<["records" := "RecordsConverter"]>
              (<["record" := "RecordConverter"]> (converters app)))
           (if _configure_jinja self
            then <["numberformat" := "format_number"]>
                   (<["dateformat" := "format_date"]>
                      (<["currencyformat" := "format_currency"]>
                         (<["timedeltaformat" := "format_timedelta"]>
                            (filters app))))
            else filters app))
        (before ++ [pool_init database])
  end.

(** [Tryton.__init__]: the object alone when no application is given,
    else what [init_app] leaves. *)
Definition __init__ (retry : Z) (application : option Flask)
    (configure_jinja : bool) (w : World) : Tryton + Result :=
  let self := mkTryton None None configure_jinja None in
  match application with
  | Some app => inr (init_app retry self app w)
  | None => inl self
  end.

(** The defaults [init_app] writes to the configuration. *)
Definition config_default (k : string) : option value :=
  if bool_decide (k = "TRYTON_DATABASE") then Some VNone
  else if bool_decide (k = "TRYTON_USER") then Some (VInt 0)
  else if bool_decide (k = "TRYTON_CONFIG") then Some VNone
  else None.

Definition is_pool_init (c : Call) : bool :=
  match c with pool_init _ => true | _ => false end.

End Setup.


(** A decimal numeral without a superfluous leading zero. *)
Definition canonical (s : string) : bool :=
  match s with
  | String c (String _ _) => negb (Ascii.eqb c "0"%char)
  | _ => true
  end.

(** ** Comparing runs *)

(** Entries into the transaction scope manager. *)
Definition is_enter (ev : Event) : bool :=
  match ev with EvEnter _ _ _ _ => true | _ => false end.

(** The events of a trace that [hide] does not hide, in order. *)
Definition effects (hide : Event -> bool) (t : list Event) : list Event :=
  List.filter (fun ev => negb (hide ev)) t.

(** Two runs that end with the same outcome, in the same ambient state,
    after the same events apart from the hidden ones. *)
Definition same_but {A} (hide : Event -> bool) (r1 r2 : Run A) : Prop :=
  outcome r1 = outcome r2 ∧ final r1 = final r2 ∧
  effects hide (trace r1) = effects hide (trace r2).

(** A configured context whose ['_request'] entry, if it has one, is a
    mapping, in every ambient state. *)
Definition request_well_formed (app : App) (context : option (valprov dict))
    : Prop :=
  ∀ w v, configured_context app context w !! "_request" = Some v -> ∃ d, v = VDict d.

Ltac run_norm := cbv beta; cbn [final outcome trace].

(** * Properties *)

(** ** Computations *)

Lemma run_eta {A} (r : Run A) : r = mkRun (outcome r) (final r) (trace r).
Proof. by destruct r. Qed.

Lemma bind_ok {A B} (m : M A) (k : A -> M B) w a w1 t1 :
  m w = mkRun (Ok a) w1 t1 ->
  bind m k w = mkRun (outcome (k a w1)) (final (k a w1)) (t1 ++ trace (k a w1)).
Proof. intros H. unfold bind. by rewrite H. Qed.

Lemma bind_raise {A B} (m : M A) (k : A -> M B) w e w1 t1 :
  m w = mkRun (Raise e) w1 t1 ->
  bind m k w = mkRun (Raise e) w1 t1.
Proof. intros H. unfold bind. by rewrite H. Qed.

Lemma try_ok {A} (m : M A) h w a w1 t1 :
  m w = mkRun (Ok a) w1 t1 -> try_except m h w = mkRun (Ok a) w1 t1.
Proof. intros H. unfold try_except. by rewrite H. Qed.

Lemma try_raise {A} (m : M A) h w e w1 t1 :
  m w = mkRun (Raise e) w1 t1 ->
  try_except m h w = mkRun (outcome (h e w1)) (final (h e w1)) (t1 ++ trace (h e w1)).
Proof. intros H. unfold try_except. by rewrite H. Qed.

(** ** Materialisation of the arguments *)

Lemma translate_conflict e : is_conflict (translate e) = is_conflict e.
Proof. by destruct e. Qed.

Lemma translate_conflict_id e : is_conflict e = true -> translate e = e.
Proof. by destruct e. Qed.

Lemma translate_other e :
  is_domain e = false -> translate e = e.
Proof. by destruct e. Qed.


Lemma instanciate_run tryton v w :
  (∃ v', instanciate tryton v w = mkRun (Ok v') w []) ∨
  (∃ e, instanciate tryton v w = mkRun (Raise e) w [] ∧
        is_conflict e = false ∧ is_domain e = false).
Proof.
  destruct v; try (left; eexists; reflexivity).
  unfold instanciate, proxy_call.
  case_bool_decide; [|right; eexists; split; [reflexivity|done]].
  destruct p as [m l|m l]; [left; eexists; reflexivity|].
  destruct l; [right|left]; eexists; [split; [reflexivity|done]|reflexivity].
Qed.

Lemma mapM_py_pure {A B} (f : A -> M B) (l : list A) w :
  (∀ a w, (∃ b, f a w = mkRun (Ok b) w []) ∨
          (∃ e, f a w = mkRun (Raise e) w [] ∧
                is_conflict e = false ∧ is_domain e = false)) ->
  (∃ bs, mapM_py f l w = mkRun (Ok bs) w []) ∨
  (∃ e, mapM_py f l w = mkRun (Raise e) w [] ∧
        is_conflict e = false ∧ is_domain e = false).
Proof.
  intros Hf. induction l as [|a l IH]; [left; by eexists|].
  cbn [mapM_py].
  destruct (Hf a w) as [[b Hb]|[e [He Hc]]].
  - erewrite bind_ok by exact Hb. cbn.
    destruct IH as [[bs Hbs]|[e [He Hc]]].
    + left. exists (b :: bs). erewrite bind_ok by exact Hbs. reflexivity.
    + right. exists e. split; [|done]. by erewrite bind_raise by exact He.
  - right. exists e. split; [|done]. by erewrite bind_raise by exact He.
Qed.

(** ** The task queue *)

Lemma pop_snoc l x : pop (l ++ [x]) = Some (l, x).
Proof. unfold pop. rewrite rev_app_distr. cbn. by rewrite rev_involutive. Qed.

Lemma drain_run l : ∀ w,
  tasks (txn w) = l ->
  drain (length l) w = mkRun (Ok tt) (drained w) (map EvRunTask (rev l)).
Proof.
  induction l as [|x l IH] using rev_ind; intros w Hw.
  - destruct w as [tf rq [u r c ts] st]. cbn in *. by subst.
  - rewrite length_app, Nat.add_1_r. cbn [drain].
    unfold bind at 1. cbn. rewrite Hw, pop_snoc.
    unfold bind. cbn. rewrite IH by done.
    cbn. rewrite rev_app_distr. reflexivity.
Qed.

Lemma run_tasks_run w :
  run_tasks w = mkRun (Ok tt) (drained w) (map EvRunTask (rev (tasks (txn w)))).
Proof.
  unfold run_tasks, bind. cbn. rewrite (drain_run (tasks (txn w))) by done.
  reflexivity.
Qed.

(** ** One attempt *)

Lemma call_then_commit (func : Handler) args kwargs ro w :
  (result <- call func args kwargs ;;
   w' <- get ;;
   when (cursor (txn w') && negb ro) (emit EvCommit) ;;
   ret result) w =
  match (func args kwargs w).2 with
  | Ok v =>
      mkRun (Ok v) (func args kwargs w).1
        (EvHandler (Ok v) (txn (func args kwargs w).1)
           :: (if cursor (txn (func args kwargs w).1) && negb ro
               then [EvCommit] else []))
  | Raise e =>
      mkRun (Raise e) (func args kwargs w).1
        [EvHandler (Raise e) (txn (func args kwargs w).1)]
  end.
Proof.
  unfold bind, call, when, get, emit, ret.
  destruct (func args kwargs w) as [w1 [v|e]]; cbn; [|done].
  by destruct (cursor (txn w1) && negb ro).
Qed.

Lemma scope_body_run app ro func args kwargs w :
  (∃ e, scope_body app ro func args kwargs w = mkRun (Raise e) w [] ∧
        is_conflict e = false) ∨
  (∃ e w1, scope_body app ro func args kwargs w =
           mkRun (Raise (translate e)) w1 [EvHandler (Raise e) (txn w1)]) ∨
  (∃ v w1 resets,
      scope_body app ro func args kwargs w =
        mkRun (Ok v) w1
          (EvHandler (Ok v) (txn w1)
             :: (if cursor (txn w1) && negb ro then [EvCommit] else []) ++ resets) ∧
      (resets = [] ∨ resets = [EvCacheResets (TRYTON_DATABASE app)])).
Proof.
  unfold scope_body.
  destruct (mapM_py_pure (instanciate (extension app)) args w
              (instanciate_run (extension app))) as [[args' Ha]|[e [He [Hc Hd]]]].
  2:{ left. exists e. split; [|done].
      erewrite bind_raise; [reflexivity|].
      erewrite try_raise by (erewrite bind_raise by exact He; reflexivity).
      cbn. unfold translate. by rewrite Hc, Hd. }
  assert (Hkw : ∀ (nv : string * value) w',
    (∃ b, (v' <- instanciate (extension app) (snd nv) ;; ret (fst nv, v')) w'
          = mkRun (Ok b) w' []) ∨
    (∃ e, (v' <- instanciate (extension app) (snd nv) ;; ret (fst nv, v')) w'
          = mkRun (Raise e) w' [] ∧ is_conflict e = false ∧ is_domain e = false)).
  { intros [n v] w'. cbn.
    destruct (instanciate_run (extension app) v w') as [[v' Hv]|[e [He Hc]]].
    - left. eexists. by erewrite bind_ok by exact Hv.
    - right. exists e. by erewrite bind_raise by exact He. }
  destruct (mapM_py_pure _ kwargs w Hkw) as [[kwargs' Hk]|[e [He [Hc Hd]]]].
  2:{ left. exists e. split; [|done].
    erewrite bind_raise; [reflexivity|].
    erewrite try_raise.
    2:{ erewrite bind_ok by exact Ha. erewrite bind_raise by exact He.
        cbn. reflexivity. }
    cbn. unfold translate. by rewrite Hc, Hd. }
  right.
  pose proof (call_then_commit func args' kwargs' ro w) as Hcall.
  destruct (func args' kwargs' w) as [w1 [v|e]]; cbn in Hcall.
  - right. exists v, w1.
    erewrite bind_ok.
    2:{ apply try_ok. erewrite bind_ok by exact Ha. erewrite bind_ok by exact Hk.
        rewrite Hcall. cbn. reflexivity. }
    unfold bind, when, emit, ret.
    destruct (tuple_lt (trytond_version app) [5%Z; 1%Z]); cbn;
      eexists; (split; [reflexivity|auto]).
  - left. exists e, w1.
    erewrite bind_raise; [reflexivity|].
    erewrite try_raise.
    2:{ erewrite bind_ok by exact Ha. erewrite bind_ok by exact Hk.
        rewrite Hcall. cbn. reflexivity. }
    reflexivity.
Qed.

Lemma scope_aborts {A} db u ro ctx (body : M A) w :
  need_new_transaction w = true ->
  conditional_transaction_for_tests db u ro ctx body w =
    mkRun (Raise (NameError "database")) w [EvEnter db u ro ctx].
Proof.
  intros H. unfold conditional_transaction_for_tests, bind, emit, get, raise.
  cbn. by rewrite H.
Qed.

Lemma scope_runs {A} db u ro ctx (body : M A) w :
  need_new_transaction w = false ->
  conditional_transaction_for_tests db u ro ctx body w =
    mkRun (outcome (body w)) (final (body w)) (EvEnter db u ro ctx :: trace (body w)).
Proof.
  intros H. unfold conditional_transaction_for_tests, bind, emit, get, raise.
  cbn. by rewrite H.
Qed.

Lemma add_request_run ctx w :
  (∃ ctx', add_request ctx w = mkRun (Ok ctx') w []) ∨
  (∃ v, ctx !! "_request" = Some v ∧
        add_request ctx w = mkRun (Raise (AttributeError "update")) w []).
Proof.
  unfold add_request, bind, get. cbn.
  destruct (ctx !! "_request") as [v|]; [|left; by eexists].
  destruct v; try (right; eexists; split; reflexivity).
  left; by eexists.
Qed.

Lemma plain_setup pre :
  Forall (λ ev, is_plain_setup ev = true) pre ->
  Forall (λ ev, is_setup ev = true) pre.
Proof. intros H. eapply Forall_impl; [exact H|]. by intros [? ? ? []| | | | |]. Qed.

Lemma build_context_run app u context w :
  ∃ pre, Forall (λ ev, is_plain_setup ev = true) pre ∧
    ((∃ ctx, build_context app u context w = mkRun (Ok ctx) w pre) ∨
     (∃ e, build_context app u context w = mkRun (Raise e) w pre ∧
           is_conflict e = false ∧ pre ≠ [])).
Proof.
  unfold build_context.
  destruct (bool_decide (is_Some (context_callback (extension app)))
            || context_truthy context).
  - destruct (need_new_transaction w) eqn:Hn.
    + eexists. split; [|right; eexists; split;
        [erewrite bind_raise by (by apply scope_aborts); reflexivity|done]].
      by repeat constructor.
    + set (body := (transaction_context <- _ ;; _ <- _ ;; _)%py).
      assert (Hb : ∃ ctx, body w = mkRun (Ok ctx) w []).
      { unfold body, bind, context_value, get_value, bind, get, ret.
        destruct (context_callback (extension app)), context as [[?|?]|];
          cbn; by eexists. }
      destruct Hb as [ctx Hb].
      exists [EvEnter (TRYTON_DATABASE app) u (Some true) None].
      split; [by repeat constructor|].
      destruct (add_request_run ctx w) as [[ctx' Hc]|[v [_ Hc]]].
      * left. exists ctx'. erewrite bind_ok.
        2:{ rewrite scope_runs by done. rewrite Hb. reflexivity. }
        run_norm. rewrite Hc. reflexivity.
      * right. exists (AttributeError "update"). split; [|done]. erewrite bind_ok.
        2:{ rewrite scope_runs by done. rewrite Hb. reflexivity. }
        run_norm. rewrite Hc. reflexivity.
  - exists []. split; [constructor|]. left.
    destruct (add_request_run ∅ w) as [[ctx' Hc]|[v [Hv _]]].
    + exists ctx'. erewrite bind_ok by reflexivity. run_norm. by rewrite Hc.
    + by rewrite lookup_empty in Hv.
Qed.

Lemma resolve_user_run app user w :
  ∃ u, resolve_user app user w = mkRun (Ok u) w [].
Proof. unfold resolve_user. destruct user as [[?|?]|]; by eexists. Qed.

Lemma resolve_readonly_run readonly w :
  ∃ ro, resolve_readonly readonly w = mkRun (Ok ro) w [].
Proof. unfold resolve_readonly. destruct readonly as [[?|?]|]; by eexists. Qed.

(** The runs of one attempt, with the scope entry spelled out. *)
Lemma wrapper_run app readonly user context func args kwargs w :
  ∃ pre u ro,
    Forall (λ ev, is_plain_setup ev = true) pre ∧
    resolve_user app user w = mkRun (Ok u) w [] ∧
    resolve_readonly readonly w = mkRun (Ok ro) w [] ∧
    ((∃ e, wrapper app readonly user context func args kwargs w
             = mkRun (Raise e) w pre ∧ pre ≠ [] ∧ is_conflict e = false) ∨
     (∃ ctx, build_context app u context w = mkRun (Ok ctx) w (trace (build_context app u context w)) ∧
        ((∃ e, wrapper app readonly user context func args kwargs w
                 = mkRun (Raise e) w
                     (pre ++ [EvEnter (TRYTON_DATABASE app) u (Some ro) (Some ctx)]) ∧
               is_conflict e = false) ∨
         (∃ e w1, wrapper app readonly user context func args kwargs w
                 = mkRun (Raise (translate e)) w1
                     ((pre ++ [EvEnter (TRYTON_DATABASE app) u (Some ro) (Some ctx)])
                        ++ [EvHandler (Raise e) (txn w1)])) ∨
         (∃ v w1 resets,
             wrapper app readonly user context func args kwargs w
                 = mkRun (Ok v) (drained w1)
                     (pre ++ EvEnter (TRYTON_DATABASE app) u (Some ro) (Some ctx)
                          :: EvHandler (Ok v) (txn w1)
                          :: epilogue resets ro (txn w1)) ∧
             (resets = [] ∨ resets = [EvCacheResets (TRYTON_DATABASE app)]))))).
Proof.
  unfold wrapper.
  set (db := TRYTON_DATABASE app).
  assert (H0 : ∃ pre0, Forall (λ ev, is_plain_setup ev = true) pre0 ∧
    (when (tuple_lt (trytond_version app) [5; 1]%Z)
       (conditional_transaction_for_tests db 0 None None (emit (EvCacheClean db))) w
       = mkRun (Ok tt) w pre0 ∨
     (pre0 ≠ [] ∧
      when (tuple_lt (trytond_version app) [5; 1]%Z)
       (conditional_transaction_for_tests db 0 None None (emit (EvCacheClean db))) w
       = mkRun (Raise (NameError "database")) w pre0))).
  { unfold when. destruct (tuple_lt _ _).
    - destruct (need_new_transaction w) eqn:Hn.
      + eexists. split; [|right; split; [|by apply scope_aborts]]; [|done].
        by repeat constructor.
      + eexists. split; [|left; by rewrite scope_runs by done].
        by repeat constructor.
    - exists []. split; [constructor|by left]. }
  destruct H0 as [pre0 [Hs0 H0]].
  destruct (resolve_user_run app user w) as [u Hu].
  destruct (resolve_readonly_run readonly w) as [ro Hr].
  destruct H0 as [H0|[Hne H0]].
  2:{ exists pre0, u, ro. repeat split; [done..|]. left.
      exists (NameError "database"). by erewrite bind_raise by exact H0. }
  erewrite bind_ok by exact H0. erewrite bind_ok by exact Hu.
  erewrite bind_ok by exact Hr.
  destruct (build_context_run app u context w)
    as [pre1 [Hs1 [[ctx Hc]|[e [Hc [He Hne]]]]]].
  2:{ exists (pre0 ++ pre1), u, ro. repeat split; [by apply Forall_app|done..|].
      left. exists e. erewrite bind_raise by exact Hc.
      repeat split; [|done]. by destruct pre0, pre1. }
  erewrite bind_ok by exact Hc.
  exists (pre0 ++ pre1), u, ro. repeat split; [by apply Forall_app|done..|].
  right. exists ctx. split; [by rewrite Hc|].
  destruct (need_new_transaction w) eqn:Hn.
  { left. exists (NameError "database").
    erewrite bind_raise by (by apply scope_aborts). cbn.
    by rewrite app_assoc. }
  destruct (scope_body_run app ro func args kwargs w)
    as [[e [Hb He]]|[[e [w1 Hb]]|[v [w1 [resets [Hb Hres]]]]]].
  - left. exists e.
    erewrite bind_raise by (rewrite scope_runs by done; rewrite Hb; reflexivity).
    cbn. by rewrite app_assoc.
  - right; left. exists e, w1.
    erewrite bind_raise by (rewrite scope_runs by done; rewrite Hb; reflexivity).
    cbn. by rewrite <- !app_assoc.
  - right; right. exists v, w1, resets. split; [|done].
    erewrite bind_ok by (rewrite scope_runs by done; rewrite Hb; reflexivity).
    erewrite bind_ok by apply run_tasks_run.
    unfold ret. run_norm. f_equal.
    unfold epilogue. cbn [List.app]. rewrite app_nil_r, <- !app_assoc.
    cbn [List.app]. by rewrite <- ?app_assoc.
Qed.

Lemma wrapper_shape app readonly user context func args kwargs w :
  attempt_shape (wrapper app readonly user context func args kwargs w).
Proof.
  destruct (wrapper_run app readonly user context func args kwargs w)
    as (pre & u & ro & Hpre%plain_setup & _ & _ & H).
  assert (Hpre' : ∀ ctx, Forall (λ ev, is_setup ev = true)
            (pre ++ [EvEnter (TRYTON_DATABASE app) u (Some ro) (Some ctx)])).
  { intros ctx. apply Forall_app; split; [done|by repeat constructor]. }
  destruct H as [(e & -> & Hne & He)
                |(ctx & _ & [(e & -> & He)|[(e & w1 & ->)|(v & w1 & rs & -> & Hrs)]])].
  - by apply attempt_aborts.
  - apply attempt_aborts; [done|by destruct pre|done].
  - by apply attempt_raises.
  - by apply attempt_returns.
Qed.

(** Outside the test mode (no [testing_flask] switch, or no transaction
    started yet) an attempt never reaches the handler: the first scope it
    enters fails on the unbound name. *)
Lemma wrapper_outside_tests app readonly user context func args kwargs w :
  need_new_transaction w = true ->
  ∃ pre,
    wrapper app readonly user context func args kwargs w
      = mkRun (Raise (NameError "database")) w pre ∧
    Forall (λ ev, is_setup ev = true) pre.
Proof.
  intros Hn. unfold wrapper.
  destruct (resolve_user_run app user w) as [u Hu].
  destruct (resolve_readonly_run readonly w) as [ro Hr].
  unfold when at 1. destruct (tuple_lt (trytond_version app) [5; 1]%Z).
  { eexists. erewrite bind_raise by (by apply scope_aborts).
    split; [done|by repeat constructor]. }
  erewrite bind_ok by reflexivity. erewrite bind_ok by exact Hu.
  erewrite bind_ok by exact Hr. run_norm. cbn [List.app].
  unfold build_context.
  destruct (bool_decide (is_Some (context_callback (extension app)))
            || context_truthy context).
  { eexists. erewrite bind_raise.
    2:{ erewrite bind_raise by (by apply scope_aborts). reflexivity. }
    split; [done|by repeat constructor]. }
  erewrite bind_ok.
  2:{ erewrite bind_ok by reflexivity. run_norm.
      unfold add_request, bind, get. run_norm. rewrite lookup_empty.
      reflexivity. }
  eexists. erewrite bind_raise by (by apply scope_aborts).
  split; [done|by repeat constructor].
Qed.

(** ** A whole invocation *)

Lemma retry_loop_shape (func : M value) :
  (∀ w, attempt_shape (func w)) ->
  ∀ n w, attempts_shape (retry_loop func (countdown n) w).
Proof.
  intros Hf n. induction n as [|n IH]; intros w.
  all: cbn [countdown retry_loop].
  all: pose proof (Hf w) as Hs; remember (func w) as r eqn:Hr; symmetry in Hr.
  all: destruct Hs as [pre e w1 Hpre Hne He|pre e w1 Hpre
                      |pre db u ro ctx v w1 resets Hpre Hres].
  all: try (erewrite try_ok by exact Hr;
            apply attempts_last; by apply attempt_returns).
  all: try (erewrite try_raise by exact Hr; rewrite He; unfold raise; run_norm;
            rewrite app_nil_r; apply attempts_last; by apply attempt_aborts).
  all: erewrite try_raise by exact Hr; rewrite translate_conflict.
  all: destruct (is_conflict e) eqn:He;
    [|unfold raise; run_norm; rewrite app_nil_r;
      apply attempts_last; by apply attempt_raises].
  all: rewrite (translate_conflict_id e He).
  all: unfold bind at 1 2 3, get; run_norm.
  - cbn. unfold raise. run_norm. rewrite !app_nil_r.
    apply attempts_last.
    rewrite <- (translate_conflict_id e He) at 1. by apply attempt_raises.
  - destruct (negb (Z.of_nat (S n) =? 0)%Z && negb (readonly (txn w1))) eqn:Hc.
    + destruct e; try done. cbn [List.app].
      apply attempts_retry; [done| |apply IH].
      apply andb_true_iff in Hc as [_ Hc]. by destruct (readonly (txn w1)).
    + unfold raise. run_norm. cbn [List.app]. rewrite !app_nil_r.
      apply attempts_last.
      rewrite <- (translate_conflict_id e He) at 1. by apply attempt_raises.
Qed.

Lemma transaction_shape app readonly user context func args kwargs w :
  invocation_shape (transaction app readonly user context func args kwargs w).
Proof.
  unfold transaction, retry_transaction, range_down.
  destruct (database_retry (extension app) <? 0)%Z.
  - apply invocation_none.
  - apply invocation_attempts, retry_loop_shape. intros w'. apply wrapper_shape.
Qed.

(** ** Counting on traces *)

Lemma commits_app a b : commits (a ++ b) = commits a + commits b.
Proof. unfold commits. by rewrite List.filter_app, length_app. Qed.

Lemma handler_runs_app a b : handler_runs (a ++ b) = handler_runs a + handler_runs b.
Proof. unfold handler_runs. by rewrite List.filter_app, length_app. Qed.

Lemma submitted_app a b : submitted (a ++ b) = submitted a ++ submitted b.
Proof. unfold submitted. apply omap_app. Qed.

Lemma submitted_tasks l : submitted (map EvRunTask l) = l.
Proof. unfold submitted. induction l as [|x l IH]; [done|]. cbn. by rewrite IH. Qed.

Lemma commits_tasks l : commits (map EvRunTask l) = 0.
Proof. by induction l. Qed.

Lemma handler_runs_tasks l : handler_runs (map EvRunTask l) = 0.
Proof. by induction l. Qed.

Lemma setup_quiet pre :
  Forall (λ ev, is_setup ev = true) pre ->
  commits pre = 0 ∧ submitted pre = [] ∧ handler_runs pre = 0.
Proof.
  induction 1 as [|ev pre Hev _ IH]; [done|].
  destruct IH as (Hc & Hs & Hh). by destruct ev.
Qed.

Lemma setup_retried pre :
  Forall (λ ev, is_setup ev = true) pre -> Forall retried_event pre.
Proof. intros H. eapply Forall_impl; [exact H|]. by intros []. Qed.

Lemma retried_quiet R :
  Forall retried_event R -> commits R = 0 ∧ submitted R = [].
Proof.
  induction 1 as [|ev R Hev _ IH]; [done|].
  destruct IH as (Hc & Hs). by destruct ev.
Qed.

Lemma epilogue_commits resets db ro t :
  (resets = [] ∨ resets = [EvCacheResets db]) ->
  commits (epilogue resets ro t) = if cursor t && negb ro then 1 else 0.
Proof.
  intros Hr. unfold epilogue. rewrite !commits_app, commits_tasks.
  destruct Hr as [-> | ->]; by destruct (cursor t && negb ro).
Qed.

Lemma epilogue_submitted resets db ro t :
  (resets = [] ∨ resets = [EvCacheResets db]) ->
  submitted (epilogue resets ro t) = rev (tasks t).
Proof.
  intros Hr. unfold epilogue. rewrite !submitted_app, submitted_tasks.
  destruct Hr as [-> | ->]; by destruct (cursor t && negb ro).
Qed.

Lemma elem_of_tasks ev l : ev ∈ map EvRunTask l -> ∃ i, ev = EvRunTask i.
Proof.
  induction l as [|x l IH]; cbn; [by intros ?%elem_of_nil|].
  intros [->|H]%elem_of_cons; [by eexists|by apply IH].
Qed.

Lemma epilogue_handler resets db ro t ev :
  (resets = [] ∨ resets = [EvCacheResets db]) ->
  ev ∈ epilogue resets ro t -> is_handler ev = false ∧ is_setup ev = false.
Proof.
  intros Hr. unfold epilogue. rewrite !elem_of_app.
  intros [H|[H|(i & ->)%elem_of_tasks]]; [| |done].
  - destruct (cursor t && negb ro); [|by apply elem_of_nil in H].
    by apply list_elem_of_singleton in H as ->.
  - destruct Hr as [-> | ->]; [by apply elem_of_nil in H|].
    by apply list_elem_of_singleton in H as ->.
Qed.

(** ** What the trace of an attempt tells *)

Lemma attempt_nonempty r : attempt_shape r -> trace r ≠ [].
Proof.
  destruct 1 as [pre e w Hpre Hne He|pre e w Hpre|pre db u ro ctx v w resets Hpre Hres];
    cbn [trace]; [done|by destruct pre|by destruct pre].
Qed.

Lemma attempt_failed r e :
  attempt_shape r -> outcome r = Raise e ->
  commits (trace r) = 0 ∧ submitted (trace r) = [].
Proof.
  destruct 1 as [pre e' w Hpre Hne He|pre e' w Hpre|pre db u ro ctx v w resets Hpre Hres];
    cbn [trace outcome final]; intros Ho; [| |done].
  - by destruct (setup_quiet pre Hpre) as (? & ? & ?).
  - destruct (setup_quiet pre Hpre) as (Hc & Hs & _).
    by rewrite commits_app, submitted_app, Hc, Hs.
Qed.

Lemma attempt_raised r e t :
  attempt_shape r -> EvHandler (Raise e) t ∈ trace r ->
  outcome r = Raise (translate e) ∧
  last (trace r) = Some (EvHandler (Raise e) t).
Proof.
  destruct 1 as [pre e' w Hpre Hne He|pre e' w Hpre|pre db u ro ctx v w resets Hpre Hres];
    cbn [trace outcome final]; intros Hin.
  - by apply (proj1 (Forall_forall _ _) Hpre) in Hin.
  - apply elem_of_app in Hin as [Hin|Hin].
    + by apply (proj1 (Forall_forall _ _) Hpre) in Hin.
    + apply list_elem_of_singleton in Hin. injection Hin as -> ->.
      by rewrite last_snoc.
  - apply elem_of_app in Hin as [Hin|Hin].
    + by apply (proj1 (Forall_forall _ _) Hpre) in Hin.
    + apply elem_of_cons in Hin as [Hin|Hin]; [done|].
      apply elem_of_cons in Hin as [Hin|Hin]; [done|].
      by apply (epilogue_handler _ _ _ _ _ Hres) in Hin as [? ?].
Qed.

Lemma attempt_returned r v t :
  attempt_shape r -> EvHandler (Ok v) t ∈ trace r ->
  ∃ pre db u ro ctx resets,
    trace r = pre ++ EvEnter db u (Some ro) (Some ctx)
                  :: EvHandler (Ok v) t :: epilogue resets ro t ∧
    Forall (λ ev, is_setup ev = true) pre ∧
    (resets = [] ∨ resets = [EvCacheResets db]) ∧
    outcome r = Ok v ∧ tasks (txn (final r)) = [].
Proof.
  destruct 1 as [pre e' w Hpre Hne He|pre e' w Hpre|pre db u ro ctx v' w resets Hpre Hres];
    cbn [trace outcome final]; intros Hin.
  - by apply (proj1 (Forall_forall _ _) Hpre) in Hin.
  - apply elem_of_app in Hin as [Hin|Hin].
    + by apply (proj1 (Forall_forall _ _) Hpre) in Hin.
    + by apply list_elem_of_singleton in Hin.
  - apply elem_of_app in Hin as [Hin|Hin].
    + by apply (proj1 (Forall_forall _ _) Hpre) in Hin.
    + apply elem_of_cons in Hin as [Hin|Hin]; [done|].
      apply elem_of_cons in Hin as [Hin|Hin].
      * injection Hin as -> ->. by exists pre, db, u, ro, ctx, resets.
      * by apply (epilogue_handler _ _ _ _ _ Hres) in Hin as [? ?].
Qed.

Lemma attempt_handler_runs r :
  attempt_shape r ->
  (∃ v, outcome r = Ok v) ∨ (∃ e, outcome r = Raise e ∧ is_conflict e = true) ->
  handler_runs (trace r) = 1.
Proof.
  destruct 1 as [pre e' w Hpre Hne He|pre e' w Hpre|pre db u ro ctx v' w resets Hpre Hres];
    cbn [trace outcome final]; intros Ho.
  - destruct Ho as [[v Hv]|[e [[= ->] Hc]]]; [done|congruence].
  - destruct (setup_quiet pre Hpre) as (_ & _ & Hh).
    by rewrite handler_runs_app, Hh.
  - destruct (setup_quiet pre Hpre) as (_ & _ & Hh).
    rewrite handler_runs_app, Hh.
    change (EvEnter db u (Some ro) (Some ctx) :: EvHandler (Ok v') (txn w)
              :: epilogue resets ro (txn w))
      with ([EvEnter db u (Some ro) (Some ctx); EvHandler (Ok v') (txn w)]
              ++ epilogue resets ro (txn w)).
    rewrite handler_runs_app. unfold epilogue.
    rewrite !handler_runs_app, handler_runs_tasks.
    destruct Hres as [-> | ->]; by destruct (cursor (txn w) && negb ro).
Qed.

(** ** Retried attempts and the last one *)

Lemma attempts_split r :
  attempts_shape r ->
  ∃ R L, trace r = R ++ L ∧ Forall retried_event R ∧
         attempt_shape (mkRun (outcome r) (final r) L).
Proof.
  induction 1 as [r Hr|pre info t r Hpre Hro _ (R & L & Ht & HR & HL)].
  - exists [], (trace r). rewrite <- run_eta. by repeat split.
  - exists ((pre ++ [EvHandler (Raise (DatabaseOperationalError info)) t]) ++ R), L.
    cbn. rewrite Ht, <- !app_assoc. repeat split; [|done].
    apply Forall_app; split; [by apply setup_retried|].
    by apply Forall_cons.
Qed.

Lemma transaction_split app readonly user context func args kwargs w :
  trace (transaction app readonly user context func args kwargs w) = [] ∨
  ∃ R L,
    trace (transaction app readonly user context func args kwargs w) = R ++ L ∧
    Forall retried_event R ∧
    attempt_shape
      (mkRun (outcome (transaction app readonly user context func args kwargs w))
             (final (transaction app readonly user context func args kwargs w)) L).
Proof.
  destruct (transaction_shape app readonly user context func args kwargs w)
    as [w'|r Hr]; [by left|right].
  by apply attempts_split.
Qed.

Lemma retried_raise R e t :
  Forall retried_event R -> EvHandler (Raise e) t ∈ R ->
  is_conflict e = true ∧ is_domain e = false ∧ readonly t = false.
Proof.
  intros HR Hin. apply (proj1 (Forall_forall _ _) HR) in Hin.
  by destruct e.
Qed.

Lemma last_app_nonempty {A} (l1 l2 : list A) : l2 ≠ [] -> last (l1 ++ l2) = last l2.
Proof.
  intros H. rewrite last_app. destruct (last l2) eqn:E; [done|].
  by apply last_None in E.
Qed.

(** ** Locating an event in a trace *)

Lemma split_at_first {A} (P : A -> bool) (B T before : list A) x after :
  Forall (λ a, P a = false) B -> P x = true ->
  B ++ T = before ++ x :: after ->
  ∃ T1, before = B ++ T1 ∧ T = T1 ++ x :: after.
Proof.
  intros HB Hx. revert before.
  induction HB as [|b B Hb HB IH]; intros before Heq; cbn in Heq.
  - by exists before.
  - destruct before as [|y before]; cbn in Heq.
    + injection Heq as -> _. congruence.
    + injection Heq as -> Heq. destruct (IH before Heq) as (T1 & -> & ->).
      by exists T1.
Qed.

Lemma unique_split {A} (P : A -> bool) (l1 l2 l1' l2' : list A) x x' :
  P x = true ->
  Forall (λ a, P a = false) l1' -> Forall (λ a, P a = false) l2' ->
  l1' ++ x' :: l2' = l1 ++ x :: l2 ->
  l1 = l1' ∧ x = x' ∧ l2 = l2'.
Proof.
  intros Hx H1 H2 Heq.
  destruct (split_at_first P l1' (x' :: l2') l1 x l2 H1 Hx Heq) as (T1 & -> & HT).
  destruct T1 as [|y T1]; cbn in HT.
  - injection HT as -> ->. by rewrite app_nil_r.
  - injection HT as -> ->.
    apply Forall_app in H2 as [_ H2]. apply Forall_cons in H2 as [H2 _]. congruence.
Qed.

Lemma retried_no_task R : Forall retried_event R -> Forall (λ ev, is_task ev = false) R.
Proof. intros H. eapply Forall_impl; [exact H|]. by intros []. Qed.

Lemma retried_no_return R : Forall retried_event R -> Forall (λ ev, is_return ev = false) R.
Proof. intros H. eapply Forall_impl; [exact H|]. by intros [| | |[]| |]. Qed.

Lemma setup_no_task pre :
  Forall (λ ev, is_setup ev = true) pre -> Forall (λ ev, is_task ev = false) pre.
Proof. intros H. eapply Forall_impl; [exact H|]. by intros []. Qed.

Lemma setup_no_return pre :
  Forall (λ ev, is_setup ev = true) pre -> Forall (λ ev, is_return ev = false) pre.
Proof. intros H. eapply Forall_impl; [exact H|]. by intros []. Qed.

Lemma epilogue_no_return resets db ro t :
  (resets = [] ∨ resets = [EvCacheResets db]) ->
  Forall (λ ev, is_return ev = false) (epilogue resets ro t).
Proof.
  intros Hr. apply Forall_forall. intros ev Hev.
  apply (epilogue_handler _ _ _ _ _ Hr) in Hev as [Hev _]. by destruct ev.
Qed.

(** The submissions of an attempt come last in its trace, and only after
    the handler has returned. *)
Lemma attempt_tasks r :
  attempt_shape r ->
  ∃ B q, trace r = B ++ map EvRunTask q ∧
         Forall (λ ev, is_task ev = false) B ∧
         (q ≠ [] -> ∃ v t, EvHandler (Ok v) t ∈ B ∧ outcome r = Ok v).
Proof.
  destruct 1 as [pre e w Hpre Hne He|pre e w Hpre|pre db u ro ctx v w resets Hpre Hres];
    cbn [trace outcome].
  - exists pre, []. rewrite app_nil_r. by split; [|split; [apply setup_no_task|]].
  - exists (pre ++ [EvHandler (Raise e) (txn w)]), []. rewrite app_nil_r.
    split; [done|]. split; [|done].
    apply Forall_app; split; [by apply setup_no_task|by repeat constructor].
  - exists (pre ++ EvEnter db u (Some ro) (Some ctx) :: EvHandler (Ok v) (txn w)
              :: (if cursor (txn w) && negb ro then [EvCommit] else []) ++ resets),
           (rev (tasks (txn w))).
    split; [unfold epilogue; rewrite <- app_assoc; cbn [List.app];
            by rewrite <- app_assoc|]. split.
    + apply Forall_app; split; [by apply setup_no_task|].
      repeat apply Forall_cons_2; [done..|].
      apply Forall_app; split.
      * destruct (cursor (txn w) && negb ro); by repeat constructor.
      * destruct Hres as [-> | ->]; by repeat constructor.
    + intros _. exists v, (txn w). split; [|done].
      apply elem_of_app; right. apply list_elem_of_further, list_elem_of_here.
Qed.

(** ** The scope entry of an attempt *)

Lemma build_context_ok app u context w ctx :
  outcome (build_context app u context w) = Ok ctx ->
  ctx = <["_request" :=
            VDict (dict_update (supplied_request (configured_context app context w))
                               (request_fields w))]>
          (configured_context app context w).
Proof.
  unfold build_context, configured_context.
  destruct (bool_decide (is_Some (context_callback (extension app)))
            || context_truthy context).
  - destruct (need_new_transaction w) eqn:Hn.
    { by erewrite bind_raise by (by apply scope_aborts). }
    set (base := dict_update
                   (match context_callback (extension app) with
                    | Some cb => cb w
                    | None => ∅
                    end) _).
    set (body := (transaction_context <- _ ;; _ <- _ ;; _)%py).
    assert (Hb : body w = mkRun (Ok base) w []).
    { unfold base, body, bind, context_value, get_value, bind, get, ret.
      by destruct (context_callback (extension app)), context as [[?|?]|]. }
    erewrite bind_ok by (rewrite scope_runs by done; rewrite Hb; reflexivity).
    run_norm. unfold add_request, bind, get, supplied_request. run_norm.
    destruct (base !! "_request") as [[]|]; cbn; congruence.
  - erewrite bind_ok by reflexivity. run_norm.
    unfold add_request, bind, get, supplied_request. run_norm.
    rewrite lookup_empty. cbn. congruence.
Qed.

Lemma wrapper_entry app readonly user context func args kwargs w db u ro ctx :
  EvEnter db u ro (Some ctx)
    ∈ trace (wrapper app readonly user context func args kwargs w) ->
  (∃ ro', resolve_readonly readonly w = mkRun (Ok ro') w [] ∧ ro = Some ro') ∧
  outcome (build_context app u context w) = Ok ctx.
Proof.
  destruct (wrapper_run app readonly user context func args kwargs w)
    as (pre & u' & ro' & Hpre & Hu & Hr & H).
  assert (Hp : EvEnter db u ro (Some ctx) ∈ pre -> False).
  { intros Hin. by apply (proj1 (Forall_forall _ _) Hpre) in Hin. }
  assert (He : ∀ c, EvEnter db u ro (Some ctx)
                      = EvEnter (TRYTON_DATABASE app) u' (Some ro') (Some c) ->
                    build_context app u' context w
                      = mkRun (Ok c) w (trace (build_context app u' context w)) ->
    (∃ ro', resolve_readonly readonly w = mkRun (Ok ro') w [] ∧ ro = Some ro') ∧
    outcome (build_context app u context w) = Ok ctx).
  { intros c [= -> -> -> ->] Hc. split; [by exists ro'|by rewrite Hc]. }
  destruct H as [(e & -> & Hne & _)
                |(c & Hc & [(e & -> & _)|[(e & w1 & ->)|(v & w1 & rs & -> & Hrs)]])];
    cbn [trace]; rewrite ?elem_of_app, ?list_elem_of_singleton, ?elem_of_cons.
  - intros Hin. by destruct (Hp Hin).
  - intros [Hin|Hin]; [by destruct (Hp Hin)|by apply (He c)].
  - intros [[Hin|Hin]|Hin]; [by destruct (Hp Hin)|by apply (He c)|done].
  - intros [Hin|[Hin|[Hin|Hin]]]; [by destruct (Hp Hin)|by apply (He c)|done|].
    by apply (epilogue_handler _ _ _ _ _ Hrs) in Hin as [_ ?].
Qed.

(** ** Conflicts followed by success *)

Lemma try_ok_outcome {A} (m : M A) h w a :
  outcome (m w) = Ok a -> try_except m h w = m w.
Proof. intros H. unfold try_except. cbv zeta. by rewrite H. Qed.

Lemma try_raise_outcome {A} (m : M A) h w e :
  outcome (m w) = Raise e ->
  try_except m h w =
    mkRun (outcome (h e (final (m w)))) (final (h e (final (m w))))
          (trace (m w) ++ trace (h e (final (m w)))).
Proof. intros H. unfold try_except. cbv zeta. by rewrite H. Qed.

Lemma retry_loop_conflicts (func : M value) :
  (∀ w, attempt_shape (func w)) ->
  ∀ n w v, conflicts_then_ok func n w v ->
  ∀ m, n ≤ m ->
  outcome (retry_loop func (countdown m) w) = Ok v ∧
  handler_runs (trace (retry_loop func (countdown m) w)) = S n.
Proof.
  intros Hf n w v Hchain.
  induction Hchain as [w v Ho|n w info v Ho Hro _ IH]; intros m Hm.
  - assert (Hrun : ∀ c rest, retry_loop func (c :: rest) w = func w).
    { intros c rest. cbn [retry_loop]. by erewrite try_ok_outcome. }
    destruct m; cbn [countdown]; rewrite Hrun; (split; [done|]).
    all: apply attempt_handler_runs; [apply Hf|left; by exists v].
  - destruct m as [|m]; [lia|]. cbn [countdown retry_loop].
    erewrite try_raise_outcome by exact Ho.
    cbn [is_conflict]. unfold bind, get. run_norm.
    replace (Z.of_nat (S m) =? 0)%Z with false by (symmetry; apply Z.eqb_neq; lia).
    rewrite Hro. cbn [negb andb]. run_norm. cbn [List.app].
    destruct (IH m ltac:(lia)) as [IHo IHr]. split; [done|].
    rewrite handler_runs_app, IHr.
    rewrite (attempt_handler_runs (func w)); [done|apply Hf|].
    right. eexists. by split; [exact Ho|].
Qed.

(** * The claims *)

(** C1 (as stated, refuted).  A transaction that is not read-only, one
    retry configured, a handler that meets a conflict on its first
    execution: the conflict is retried, the handler runs twice and the
    call returns. *)
Lemma C1_counterexample :
  readonly (txn (sample_world false true)) = false ∧
  trace (transaction (sample_app 1) (Some (Literal false)) None None
           (flaky 1) [] [] (sample_world false true)) !! 1%nat
    = Some (EvHandler (Raise (DatabaseOperationalError "could not serialize access"))
              (sample_txn false true)) ∧
  outcome (transaction (sample_app 1) (Some (Literal false)) None None
             (flaky 1) [] [] (sample_world false true)) = Ok (VInt 1) ∧
  handler_runs (trace (transaction (sample_app 1) (Some (Literal false)) None None
                         (flaky 1) [] [] (sample_world false true))) = 2.
Proof. vm_compute. by repeat split. Qed.

(** C1 (amended).  A database conflict raised by the handler while the
    transaction is read-only is never retried: the call re-raises that same
    error and the handler's failure is the last step of the invocation.
    So retries happen only while the transaction is not read-only. *)
Theorem C1_conflict_not_retried_when_readonly
    app ro_arg user_arg ctx_arg func args kwargs w e t :
  EvHandler (Raise e) t
    ∈ trace (transaction app ro_arg user_arg ctx_arg func args kwargs w) ->
  is_conflict e = true ->
  readonly t = true ->
  outcome (transaction app ro_arg user_arg ctx_arg func args kwargs w) = Raise e ∧
  last (trace (transaction app ro_arg user_arg ctx_arg func args kwargs w))
    = Some (EvHandler (Raise e) t).
Proof.
  intros Hin Hc Hro.
  destruct (transaction_split app ro_arg user_arg ctx_arg func args kwargs w)
    as [Hnil|(R & L & Ht & HR & HL)].
  { rewrite Hnil in Hin. by apply elem_of_nil in Hin. }
  rewrite Ht in Hin |- *. apply elem_of_app in Hin as [Hin|Hin].
  { destruct (retried_raise R e t HR Hin) as (_ & _ & Hf). congruence. }
  destruct (attempt_raised _ e t HL Hin) as [Ho Hl]. cbn [outcome trace final] in Ho, Hl.
  rewrite Ho, (translate_conflict_id e Hc). split; [done|].
  rewrite last_app_nonempty; [done|]. intros ->. by apply elem_of_nil in Hin.
Qed.

(** C1 (amended), at a sample: a read-only transaction, one retry
    configured, a conflict on the first execution. *)
Lemma C1_witness :
  outcome (transaction (sample_app 1) (Some (Literal true)) None None
             (flaky 1) [] [] (sample_world true true))
    = Raise (DatabaseOperationalError "could not serialize access") ∧
  last (trace (transaction (sample_app 1) (Some (Literal true)) None None
                 (flaky 1) [] [] (sample_world true true)))
    = Some (EvHandler (Raise (DatabaseOperationalError "could not serialize access"))
              (sample_txn true true)).
Proof.
  apply (C1_conflict_not_retried_when_readonly
           (sample_app 1) (Some (Literal true)) None None (flaky 1) [] []
           (sample_world true true)
           (DatabaseOperationalError "could not serialize access")
           (sample_txn true true)).
  - vm_compute. apply list_elem_of_further, list_elem_of_here.
  - reflexivity.
  - reflexivity.
Defined.

(** C2 (as stated, refuted).  The handler queues task 1, then task 2; the
    call succeeds and [run_task] receives 2 first, then 1. *)
Lemma C2_counterexample :
  outcome (transaction (sample_app 3) None None None (queues [1; 2]%Z) [] []
             (sample_world true true)) = Ok VNone ∧
  trace (transaction (sample_app 3) None None None (queues [1; 2]%Z) [] []
           (sample_world true true)) !! 1%nat
    = Some (EvHandler (Ok VNone)
              (mkTransaction (Some 1%Z) true true [1; 2]%Z)) ∧
  submitted (trace (transaction (sample_app 3) None None None (queues [1; 2]%Z)
                      [] [] (sample_world true true))) = [2; 1]%Z ∧
  submitted (trace (transaction (sample_app 3) None None None (queues [1; 2]%Z)
                      [] [] (sample_world true true))) ≠ [1; 2]%Z.
Proof. vm_compute. by repeat split. Qed.

(** C2 (amended).  Whenever the handler returns, the tasks then on
    [transaction.tasks] are each passed to [run_task] exactly once, the
    last queued first (the queue is emptied with [pop()]), and the queue is
    left empty; the call returns the handler's result. *)
Theorem C2_tasks_submitted_last_first
    app ro_arg user_arg ctx_arg func args kwargs w v t :
  EvHandler (Ok v) t
    ∈ trace (transaction app ro_arg user_arg ctx_arg func args kwargs w) ->
  submitted (trace (transaction app ro_arg user_arg ctx_arg func args kwargs w))
    = rev (tasks t) ∧
  outcome (transaction app ro_arg user_arg ctx_arg func args kwargs w) = Ok v ∧
  tasks (txn (final (transaction app ro_arg user_arg ctx_arg func args kwargs w))) = [].
Proof.
  intros Hin.
  destruct (transaction_split app ro_arg user_arg ctx_arg func args kwargs w)
    as [Hnil|(R & L & Ht & HR & HL)].
  { rewrite Hnil in Hin. by apply elem_of_nil in Hin. }
  rewrite Ht in Hin |- *. apply elem_of_app in Hin as [Hin|Hin].
  { by apply (proj1 (Forall_forall _ _) HR) in Hin. }
  destruct (attempt_returned _ v t HL Hin)
    as (pre & db & u & ro & ctx & resets & HLeq & Hpre & Hres & Ho & Hfin).
  cbn [outcome trace final] in HLeq, Ho, Hfin.
  destruct (retried_quiet R HR) as [_ HsR].
  destruct (setup_quiet pre Hpre) as (_ & Hs & _).
  rewrite Ho, Hfin, submitted_app, HsR, HLeq, submitted_app, Hs.
  repeat split. cbn [List.app].
  change (submitted (?a :: ?b :: ?l)) with (submitted l).
  by apply epilogue_submitted with db.
Qed.

(** C2 (amended), at a sample: three tasks queued by the handler. *)
Lemma C2_witness :
  submitted (trace (transaction (sample_app 3) None None None (queues [1; 2; 3]%Z)
                      [] [] (sample_world false true)))
    = rev [1; 2; 3]%Z ∧
  outcome (transaction (sample_app 3) None None None (queues [1; 2; 3]%Z) [] []
             (sample_world false true)) = Ok VNone ∧
  tasks (txn (final (transaction (sample_app 3) None None None
                       (queues [1; 2; 3]%Z) [] [] (sample_world false true)))) = [].
Proof.
  apply (C2_tasks_submitted_last_first
           (sample_app 3) None None None (queues [1; 2; 3]%Z) [] []
           (sample_world false true) VNone
           (mkTransaction (Some 1%Z) false true [1; 2; 3]%Z)).
  vm_compute. apply list_elem_of_further, list_elem_of_here.
Defined.

(** C3 (as stated, refuted).  A read-only transaction, one retry
    configured, a handler that meets a conflict on its first execution and
    would return on the second: the call raises the conflict after a
    single execution of the handler. *)
Lemma C3_counterexample :
  readonly (txn (sample_world true true)) = true ∧
  (1 <= database_retry (extension (sample_app 1)))%Z ∧
  outcome (wrapper (sample_app 1) (Some (Literal true)) None None (flaky 1) [] []
             (sample_world true true))
    = Raise (DatabaseOperationalError "could not serialize access") ∧
  outcome (wrapper (sample_app 1) (Some (Literal true)) None None (flaky 1) [] []
             (final (wrapper (sample_app 1) (Some (Literal true)) None None
                       (flaky 1) [] [] (sample_world true true))))
    = Ok (VInt 1) ∧
  outcome (transaction (sample_app 1) (Some (Literal true)) None None (flaky 1)
             [] [] (sample_world true true))
    = Raise (DatabaseOperationalError "could not serialize access") ∧
  handler_runs (trace (transaction (sample_app 1) (Some (Literal true)) None None
                         (flaky 1) [] [] (sample_world true true))) = 1.
Proof. vm_compute. by repeat split. Qed.

(** C3 (amended).  If the first [n] attempts of the wrapped call each end
    in a database conflict, on a transaction that is not read-only, and the
    next attempt returns [v], then with a retry count of at least [n] the
    call returns [v] and the handler body is executed exactly [n + 1]
    times. *)
Theorem C3_retries_until_success
    app ro_arg user_arg ctx_arg func args kwargs w n v :
  conflicts_then_ok (wrapper app ro_arg user_arg ctx_arg func args kwargs) n w v ->
  (Z.of_nat n <= database_retry (extension app))%Z ->
  outcome (transaction app ro_arg user_arg ctx_arg func args kwargs w) = Ok v ∧
  handler_runs (trace (transaction app ro_arg user_arg ctx_arg func args kwargs w))
    = n + 1.
Proof.
  intros Hchain Hn. unfold transaction, retry_transaction, range_down.
  replace (database_retry (extension app) <? 0)%Z with false
    by (symmetry; apply Z.ltb_ge; lia).
  rewrite Nat.add_1_r.
  apply retry_loop_conflicts; [intros w'; apply wrapper_shape|done|lia].
Qed.

(** C3 (amended), at a sample: two conflicts, then success, five retries
    configured, a transaction that is not read-only. *)
Lemma C3_witness :
  outcome (transaction (sample_app 5) (Some (Literal false)) None None (flaky 2)
             [] [] (sample_world false true)) = Ok (VInt 2) ∧
  handler_runs (trace (transaction (sample_app 5) (Some (Literal false)) None None
                         (flaky 2) [] [] (sample_world false true))) = 2 + 1.
Proof.
  apply (C3_retries_until_success
           (sample_app 5) (Some (Literal false)) None None (flaky 2) [] []
           (sample_world false true) 2 (VInt 2)).
  - apply cto_conflict with "could not serialize access";
      [vm_compute; reflexivity..|].
    apply cto_conflict with "could not serialize access";
      [vm_compute; reflexivity..|].
    apply cto_ok. vm_compute. reflexivity.
  - vm_compute. discriminate.
Defined.



(** C5 (as stated, refuted).  A read-write invocation on a transaction
    object without a [cursor] attribute: the handler returns and the
    wrapper commits nothing. *)
Lemma C5_counterexample :
  trace (transaction (sample_app 3) (Some (Literal false)) None None
           (queues []) [] [] (sample_world false false))
    = [EvEnter "db" 0 (Some false) (Some (<["_request" := VDict ∅]> ∅));
       EvHandler (Ok VNone) (sample_txn false false)] ∧
  outcome (transaction (sample_app 3) (Some (Literal false)) None None
             (queues []) [] [] (sample_world false false)) = Ok VNone ∧
  commits (trace (transaction (sample_app 3) (Some (Literal false)) None None
                    (queues []) [] [] (sample_world false false))) = 0.
Proof. vm_compute. by repeat split. Qed.

(** C5 (amended).  Whenever the handler returns in a scope entered with
    read-only flag [ro], leaving the transaction object [t], the wrapper
    calls [cursor.commit()] exactly once if [t] has a [cursor] attribute
    and [ro] is false, and never otherwise; the call returns the handler's
    result. *)
Theorem C5_commit_once_if_cursor_and_read_write
    app ro_arg user_arg ctx_arg func args kwargs w pre db u ro ctx v t post :
  trace (transaction app ro_arg user_arg ctx_arg func args kwargs w)
    = pre ++ EvEnter db u (Some ro) ctx :: EvHandler (Ok v) t :: post ->
  commits (trace (transaction app ro_arg user_arg ctx_arg func args kwargs w))
    = (if cursor t && negb ro then 1 else 0) ∧
  outcome (transaction app ro_arg user_arg ctx_arg func args kwargs w) = Ok v.
Proof.
  intros Heq.
  destruct (transaction_split app ro_arg user_arg ctx_arg func args kwargs w)
    as [Hnil|(R & L & Ht & HR & HL)].
  { rewrite Hnil in Heq. by destruct pre. }
  assert (Hin : EvHandler (Ok v) t ∈ L).
  { assert (Hin : EvHandler (Ok v) t ∈ R ++ L).
    { rewrite <- Ht, Heq. rewrite elem_of_app, !elem_of_cons. auto. }
    apply elem_of_app in Hin as [Hin|Hin]; [|done].
    by apply (proj1 (Forall_forall _ _) HR) in Hin. }
  destruct (attempt_returned _ v t HL Hin)
    as (pre' & db' & u' & ro' & ctx' & resets & HLeq & Hpre & Hres & Ho & _).
  cbn [outcome trace final] in HLeq, Ho. split; [|done].
  rewrite Ht, HLeq in Heq.
  assert (Heq' : ((R ++ pre') ++ [EvEnter db' u' (Some ro') (Some ctx')])
                   ++ EvHandler (Ok v) t :: epilogue resets ro' t
                 = (pre ++ [EvEnter db u (Some ro) ctx])
                   ++ EvHandler (Ok v) t :: post).
  { rewrite <- !app_assoc. exact Heq. }
  apply (unique_split is_return) in Heq' as (Hl & _ & _); [|done| |].
  2:{ apply Forall_app; split; [|by repeat constructor].
      apply Forall_app; split;
        [by apply retried_no_return|by apply setup_no_return]. }
  2:{ by apply epilogue_no_return with db'. }
  apply app_inj_tail in Hl as [_ [= -> -> -> ->]].
  destruct (retried_quiet R HR) as [HcR _].
  destruct (setup_quiet pre' Hpre) as (Hcp & _ & _).
  rewrite Ht, HLeq, !commits_app, HcR, Hcp.
  change (commits (?a :: ?b :: ?l)) with (commits l).
  by rewrite (epilogue_commits resets db').
Qed.

(** C5 (amended), at a sample: a read-write invocation on a transaction
    object with a cursor. *)
Lemma C5_witness :
  commits (trace (transaction (sample_app 3) (Some (Literal false)) None None
                    (queues [4]%Z) [] [] (sample_world false true)))
    = (if cursor (mkTransaction (Some 1%Z) false true [4]%Z) && negb false
       then 1 else 0) ∧
  outcome (transaction (sample_app 3) (Some (Literal false)) None None
             (queues [4]%Z) [] [] (sample_world false true)) = Ok VNone.
Proof.
  apply (C5_commit_once_if_cursor_and_read_write
           (sample_app 3) (Some (Literal false)) None None (queues [4]%Z) [] []
           (sample_world false true)
           [] "db" 0%Z false (Some (<["_request" := VDict ∅]> ∅)) VNone
           (mkTransaction (Some 1%Z) false true [4]%Z)
           [EvCommit; EvRunTask 4]).
  vm_compute. reflexivity.
Defined.

(** C6 (as stated, refuted).  Two invocations in which no commit occurs
    and the queued task is submitted all the same: a read-only one, and a
    read-write one on a transaction object without a [cursor] attribute. *)
Lemma C6_counterexample :
  (outcome (transaction (sample_app 3) (Some (Literal true)) None None
              (queues [7]%Z) [] [] (sample_world true true)) = Ok VNone ∧
   commits (trace (transaction (sample_app 3) (Some (Literal true)) None None
                     (queues [7]%Z) [] [] (sample_world true true))) = 0 ∧
   submitted (trace (transaction (sample_app 3) (Some (Literal true)) None None
                       (queues [7]%Z) [] [] (sample_world true true))) = [7]%Z) ∧
  (outcome (transaction (sample_app 3) (Some (Literal false)) None None
              (queues [7]%Z) [] [] (sample_world false false)) = Ok VNone ∧
   commits (trace (transaction (sample_app 3) (Some (Literal false)) None None
                     (queues [7]%Z) [] [] (sample_world false false))) = 0 ∧
   submitted (trace (transaction (sample_app 3) (Some (Literal false)) None None
                       (queues [7]%Z) [] [] (sample_world false false))) = [7]%Z).
Proof. vm_compute. by repeat split. Qed.

(** C6 (amended).  Tasks are drained only once the handler has returned and
    after any commit the wrapper makes: every call of [run_task] is
    preceded by a successful return of the handler in an invocation that
    succeeds, and no [cursor.commit()] follows it.  So an invocation that
    ends in an error submits nothing. *)
Theorem C6_tasks_only_after_handler_returned
    app ro_arg user_arg ctx_arg func args kwargs w before i after :
  trace (transaction app ro_arg user_arg ctx_arg func args kwargs w)
    = before ++ EvRunTask i :: after ->
  (∃ v t, EvHandler (Ok v) t ∈ before ∧
          outcome (transaction app ro_arg user_arg ctx_arg func args kwargs w) = Ok v) ∧
  commits after = 0.
Proof.
  intros Heq.
  destruct (transaction_split app ro_arg user_arg ctx_arg func args kwargs w)
    as [Hnil|(R & L & Ht & HR & HL)].
  { rewrite Hnil in Heq. by destruct before. }
  destruct (attempt_tasks _ HL) as (B & q & HLeq & HB & Hq).
  cbn [trace outcome] in HLeq, Hq.
  rewrite Ht, HLeq, app_assoc in Heq.
  destruct (split_at_first is_task (R ++ B) (map EvRunTask q) before
              (EvRunTask i) after) as (T1 & -> & HT); [|done|done|].
  { apply Forall_app; split; [by apply retried_no_task|done]. }
  split.
  - destruct Hq as (v & t & Hin & Ho).
    { intros ->. by destruct T1. }
    exists v, t. split; [|done]. rewrite !elem_of_app. auto.
  - pose proof (commits_tasks q) as Hc.
    rewrite HT, commits_app in Hc.
    change (commits (EvRunTask i :: after)) with (commits after) in Hc. lia.
Qed.

(** C6 (amended), at a sample: the first of two submissions follows the
    handler's return and the commit. *)
Lemma C6_witness :
  (∃ v t,
      EvHandler (Ok v) t
        ∈ [EvEnter "db" 0 (Some false)
             (Some (<["_request" := VDict ∅]> ∅));
           EvHandler (Ok VNone) (mkTransaction (Some 1%Z) false true [7; 8]%Z);
           EvCommit] ∧
      outcome (transaction (sample_app 3) (Some (Literal false)) None None
                 (queues [7; 8]%Z) [] [] (sample_world false true)) = Ok v) ∧
  commits [EvRunTask 7] = 0.
Proof.
  apply (C6_tasks_only_after_handler_returned
           (sample_app 3) (Some (Literal false)) None None (queues [7; 8]%Z) [] []
           (sample_world false true)
           [EvEnter "db" 0 (Some false) (Some (<["_request" := VDict ∅]> ∅));
            EvHandler (Ok VNone) (mkTransaction (Some 1%Z) false true [7; 8]%Z);
            EvCommit]
           8%Z [EvRunTask 7]).
  vm_compute. reflexivity.
Defined.

(** C7.  [record(<model>)] parses ["42"] to a reference over the single id
    42 of that model, which materialises to the one record 42 of the model;
    [records(<model>)] parses ["3,5,9"] to a reference over the ids 3, 5, 9
    in that order; each reference is converted back to the text it came
    from. *)
Theorem C7_converters_round_trip (model : string) :
  RecordConverter.to_python model "42" = Some (_RecordProxy model 42) ∧
  proxy_model (_RecordProxy model 42) = model ∧
  proxy_ids (_RecordProxy model 42) = [42%Z] ∧
  (∀ tryton w, model ∈ pool tryton ->
     outcome (instanciate tryton (VProxy (_RecordProxy model 42)) w)
       = Ok (VRecord model 42)) ∧
  RecordConverter.to_url (_RecordProxy model 42) = Some "42" ∧
  RecordsConverter.to_python model "3,5,9"
    = Some (_RecordsProxy model [3; 5; 9]%Z) ∧
  proxy_model (_RecordsProxy model [3; 5; 9]%Z) = model ∧
  proxy_ids (_RecordsProxy model [3; 5; 9]%Z) = [3; 5; 9]%Z ∧
  RecordsConverter.to_url (_RecordsProxy model [3; 5; 9]%Z) = "3,5,9".
Proof.
  repeat split.
  intros tryton w Hin. unfold instanciate, proxy_call. cbn [proxy_model _RecordProxy].
  by rewrite bool_decide_eq_true_2.
Qed.

(** C8 (as stated, refuted).  No request is bound and the decorator's
    context already carries a ['_request'] mapping: the context the scope
    is entered with has a ['_request'] entry that is neither absent nor
    empty. *)
Lemma C8_counterexample :
  request (sample_world false true) = None ∧
  trace (transaction (sample_app 3) None None (Some (Literal tenant_context))
           (queues []) [] [] (sample_world false true)) !! 1%nat
    = Some (EvEnter "db" 0 (Some true) (Some tenant_context)) ∧
  tenant_context !! "_request" = Some (VDict tenant_request) ∧
  tenant_request !! "company" = Some (VInt 1) ∧
  tenant_request ≠ ∅.
Proof.
  repeat split; try (vm_compute; reflexivity).
  apply insert_non_empty.
Qed.

(** C8 (amended).  The context with which an attempt enters the
    transaction scope always has a ['_request'] mapping.  When a request
    is bound the mapping holds the request's remote address, HTTP host,
    scheme and is-secure flag.  Under every key other than those four it
    holds what the ['_request'] mapping of the configured context holds
    there, and when no request is bound and the configured context has no
    ['_request'] entry it is empty. *)
Theorem C8_request_entry
    app ro_arg user_arg ctx_arg func args kwargs w db u ro ctx :
  EvEnter db u ro (Some ctx)
    ∈ trace (wrapper app ro_arg user_arg ctx_arg func args kwargs w) ->
  ∃ d, ctx !! "_request" = Some (VDict d) ∧
       (∀ k, k ∉ request_keys ->
          d !! k = supplied_request (configured_context app ctx_arg w) !! k) ∧
       match request w with
       | Some r =>
           d !! "remote_addr" = Some (opt_str (remote_addr r)) ∧
           d !! "http_host" = Some (opt_str (HTTP_HOST r)) ∧
           d !! "scheme" = Some (VStr (scheme r)) ∧
           d !! "is_secure" = Some (VBool (is_secure r))
       | None =>
           configured_context app ctx_arg w !! "_request" = None -> d = ∅
       end.
Proof.
  intros Hin. apply wrapper_entry in Hin as [_ Hctx].
  apply build_context_ok in Hctx as ->.
  eexists. split; [apply lookup_insert_eq|].
  unfold dict_update, request_fields, request_keys. split.
  - intros k Hk. destruct (request w) as [r|]; [|by rewrite (left_id_L ∅ (∪))].
    rewrite lookup_union_r; [done|].
    rewrite !not_elem_of_cons in Hk. destruct Hk as (? & ? & ? & ? & _).
    by rewrite !lookup_insert_ne.
  - destruct (request w) as [r|].
    + repeat split; apply lookup_union_Some_l; by simplify_map_eq.
    + intros Hnone. rewrite (left_id_L ∅ (∪)). unfold supplied_request.
      by rewrite Hnone.
Qed.

(** C8 (amended), at a sample: a POST request over https, and a
    configured context that supplies a ['_request'] mapping. *)
Lemma C8_witness :
  ∃ d, (<["_request" :=
            VDict (dict_update tenant_request
                     (request_fields
                        (mkWorld true (Some sample_request) (sample_txn false true) 0)))]>
          tenant_context) !! "_request" = Some (VDict d) ∧
       (∀ k, k ∉ request_keys ->
          d !! k
          = supplied_request
              (configured_context (sample_app 3) (Some (Literal tenant_context))
                 (mkWorld true (Some sample_request) (sample_txn false true) 0))
              !! k) ∧
       (d !! "remote_addr" = Some (VStr "10.0.0.7") ∧
        d !! "http_host" = Some (VStr "shop.example") ∧
        d !! "scheme" = Some (VStr "https") ∧
        d !! "is_secure" = Some (VBool true)).
Proof.
  apply (C8_request_entry
           (sample_app 3) None None (Some (Literal tenant_context))
           (queues []) [] []
           (mkWorld true (Some sample_request) (sample_txn false true) 0)
           "db" 0%Z (Some false)).
  vm_compute. apply list_elem_of_further, list_elem_of_here.
Defined.

(** C9.  Whenever the handler raises an error that is not a domain error
    and, if it is a database conflict, is not retried (the invocation ends
    with it), the wrapped call raises that very error, and the wrapper
    never calls [cursor.commit()]. *)
Theorem C9_other_errors_propagate
    app ro_arg user_arg ctx_arg func args kwargs w e t :
  EvHandler (Raise e) t
    ∈ trace (transaction app ro_arg user_arg ctx_arg func args kwargs w) ->
  is_domain e = false ->
  (is_conflict e = true ->
   last (trace (transaction app ro_arg user_arg ctx_arg func args kwargs w))
     = Some (EvHandler (Raise e) t)) ->
  outcome (transaction app ro_arg user_arg ctx_arg func args kwargs w) = Raise e ∧
  commits (trace (transaction app ro_arg user_arg ctx_arg func args kwargs w)) = 0.
Proof.
  intros Hin Hd Hlast.
  destruct (transaction_split app ro_arg user_arg ctx_arg func args kwargs w)
    as [Hnil|(R & L & Ht & HR & HL)].
  { rewrite Hnil in Hin. by apply elem_of_nil in Hin. }
  rewrite Ht in Hin, Hlast |- *.
  assert (HinL : EvHandler (Raise e) t ∈ L).
  { apply elem_of_app in Hin as [Hin|Hin]; [|done].
    destruct (retried_raise R e t HR Hin) as (Hc & _ & _).
    specialize (Hlast Hc).
    rewrite last_app_nonempty in Hlast by (by apply (attempt_nonempty _ HL)).
    by apply last_Some_elem_of. }
  destruct (attempt_raised _ e t HL HinL) as [Ho _]. cbn [outcome trace final] in Ho.
  destruct (attempt_failed _ _ HL Ho) as [Hc _]. cbn [outcome trace final] in Hc.
  destruct (retried_quiet R HR) as [HcR _].
  by rewrite Ho, (translate_other e Hd), commits_app, HcR, Hc.
Qed.

(** C9, at a sample: the handler raises an unexpected error. *)
Lemma C9_witness :
  outcome (transaction (sample_app 3) None None None
             (fails (OtherException "ZeroDivisionError")) [] []
             (sample_world false true))
    = Raise (OtherException "ZeroDivisionError") ∧
  commits (trace (transaction (sample_app 3) None None None
                    (fails (OtherException "ZeroDivisionError")) [] []
                    (sample_world false true))) = 0.
Proof.
  apply (C9_other_errors_propagate
           (sample_app 3) None None None
           (fails (OtherException "ZeroDivisionError")) [] []
           (sample_world false true) (OtherException "ZeroDivisionError")
           (sample_txn false true)).
  - vm_compute. apply list_elem_of_further, list_elem_of_here.
  - reflexivity.
  - intros H. vm_compute in H. discriminate H.
Defined.

(** * Further properties of the code *)

(** ** [retry_transaction] on any decorated function *)

Lemma countdown_length n : length (countdown n) = S n.
Proof. induction n as [|n IH]; cbn [countdown length]; [done|by rewrite IH]. Qed.

Lemma range_down_nonneg retry :
  (0 <= retry)%Z -> range_down retry = countdown (Z.to_nat retry).
Proof.
  intros H. unfold range_down.
  by replace (retry <? 0)%Z with false by (symmetry; apply Z.ltb_ge; lia).
Qed.

Lemma countdown_cons n : ∃ c rest, countdown n = c :: rest.
Proof. destruct n; by eexists _, _. Qed.

(** One pass through the loop body when the attempt is not retried. *)
Lemma retry_loop_once (func : M value) c rest w :
  (∀ info, outcome (func w) = Raise (DatabaseOperationalError info) ->
           c = 0%Z ∨ readonly (txn (final (func w))) = true) ->
  retry_loop func (c :: rest) w = func w.
Proof.
  intros H. cbn [retry_loop].
  destruct (outcome (func w)) as [v|e] eqn:Ho.
  { by erewrite try_ok_outcome. }
  erewrite try_raise_outcome by exact Ho.
  destruct e; cbn [is_conflict]; unfold raise; run_norm;
    try (rewrite app_nil_r, <- Ho; symmetry; apply run_eta).
  unfold bind, get. run_norm.
  destruct (H info eq_refl) as [-> | ->]; cbn [Z.eqb negb andb];
    rewrite ?andb_false_r; unfold raise; run_norm;
    rewrite !app_nil_r, <- Ho; symmetry; apply run_eta.
Qed.

(** A property of every event of every attempt holds of every event of
    the invocation. *)
Lemma retry_loop_Forall (P : Event -> Prop) (func : M value) :
  (∀ w, Forall P (trace (func w))) ->
  ∀ counts w, Forall P (trace (retry_loop func counts w)).
Proof.
  intros Hf counts. induction counts as [|c rest IH]; intros w; [constructor|].
  cbn [retry_loop].
  destruct (outcome (func w)) as [v|e] eqn:Ho.
  { erewrite try_ok_outcome by exact Ho. apply Hf. }
  erewrite try_raise_outcome by exact Ho.
  run_norm. apply Forall_app; split; [apply Hf|].
  destruct (is_conflict e); [|constructor].
  unfold bind, get. run_norm.
  destruct (negb (c =? 0)%Z && negb (readonly (txn (final (func w)))));
    [apply IH|constructor].
Qed.

(** The handler runs at most once per pass of the loop. *)
Lemma retry_loop_runs (func : M value) :
  (∀ w, handler_runs (trace (func w)) ≤ 1) ->
  ∀ counts w, handler_runs (trace (retry_loop func counts w)) ≤ length counts.
Proof.
  intros Hf counts. induction counts as [|c rest IH]; intros w; [done|].
  cbn [retry_loop length]. specialize (Hf w).
  destruct (outcome (func w)) as [v|e] eqn:Ho.
  { erewrite try_ok_outcome by exact Ho. lia. }
  erewrite try_raise_outcome by exact Ho.
  run_norm. rewrite handler_runs_app.
  destruct (is_conflict e); [|cbn; lia].
  unfold bind, get. run_norm.
  destruct (negb (c =? 0)%Z && negb (readonly (txn (final (func w)))));
    [specialize (IH (final (func w))); cbn [List.app]; lia|cbn; lia].
Qed.

Lemma attempt_runs_le r : attempt_shape r -> handler_runs (trace r) ≤ 1.
Proof.
  destruct 1 as [pre e w Hpre Hne He|pre e w Hpre|pre db u ro ctx v w resets Hpre Hres].
  - destruct (setup_quiet pre Hpre) as (_ & _ & Hh). cbn [trace]. lia.
  - destruct (setup_quiet pre Hpre) as (_ & _ & Hh).
    cbn [trace]. rewrite handler_runs_app, Hh. done.
  - by rewrite (attempt_handler_runs _
                  (attempt_returns pre db u ro ctx v w resets Hpre Hres));
      [|left; eexists].
Qed.

Lemma retry_loop_exhausted (func : M value) :
  (∀ w, attempt_shape (func w)) ->
  ∀ n w info w', conflicts_only func n w info w' ->
  outcome (retry_loop func (countdown n) w) = Raise (DatabaseOperationalError info) ∧
  final (retry_loop func (countdown n) w) = w' ∧
  handler_runs (trace (retry_loop func (countdown n) w)) = S n.
Proof.
  intros Hf n w info w' Hchain.
  induction Hchain as [w info Ho|n w info info' w' Ho Hro _ IH].
  - cbn [countdown]. rewrite retry_loop_once by auto.
    rewrite Ho. repeat split.
    apply attempt_handler_runs; [apply Hf|right; by eexists].
  - cbn [countdown retry_loop].
    erewrite try_raise_outcome by exact Ho.
    cbn [is_conflict]. unfold bind, get. run_norm.
    replace (Z.of_nat (S n) =? 0)%Z with false by (symmetry; apply Z.eqb_neq; lia).
    rewrite Hro. cbn [negb andb]. run_norm. cbn [List.app].
    destruct IH as (IHo & IHf & IHr). repeat split; [done..|].
    rewrite handler_runs_app, IHr.
    rewrite (attempt_handler_runs (func w)); [done|apply Hf|].
    right. eexists. by split; [exact Ho|].
Qed.

(** X1.  With a negative [database_retry] the loop of [retry_transaction]
    has no pass: the decorated function is never called, nothing is
    recorded, the ambient state is untouched and the call returns
    [None]. *)
Theorem X1_negative_retry_never_calls (app : App) (func : M value) (w : World) :
  (database_retry (extension app) < 0)%Z ->
  retry_transaction app func w = mkRun (Ok VNone) w [].
Proof.
  intros H. unfold retry_transaction, range_down.
  by replace (database_retry (extension app) <? 0)%Z with true
    by (symmetry; apply Z.ltb_lt; lia).
Qed.

Lemma X1_witness :
  retry_transaction
    (mkApp (mkTryton None (-1) []) "db" 0 [5; 2]%Z)
    (wrapper (mkApp (mkTryton None (-1) []) "db" 0 [5; 2]%Z)
       None None None (queues [1]%Z) [] [])
    (sample_world false true)
  = mkRun (Ok VNone) (sample_world false true) [].
Proof.
  apply (X1_negative_retry_never_calls
           (mkApp (mkTryton None (-1) []) "db" 0 [5; 2]%Z)).
  reflexivity.
Defined.

(** X2.  With a retry count of at least 0, an attempt that does not end in
    a database conflict, or that ends in one while the transaction is
    read-only, is the whole call: [retry_transaction] returns or raises what
    the decorated function did, after calling it exactly once. *)
Theorem X2_retry_transparent (app : App) (func : M value) (w : World) :
  (0 <= database_retry (extension app))%Z ->
  (∀ info, outcome (func w) = Raise (DatabaseOperationalError info) ->
           readonly (txn (final (func w))) = true) ->
  retry_transaction app func w = func w.
Proof.
  intros Hr H. unfold retry_transaction. rewrite range_down_nonneg by done.
  destruct (countdown_cons (Z.to_nat (database_retry (extension app))))
    as (c & rest & ->).
  apply retry_loop_once. intros info Ho. right. by apply (H info).
Qed.

Lemma X2_witness :
  retry_transaction (sample_app 3)
    (wrapper (sample_app 3) None None None (fails (KeyError "party")) [] [])
    (sample_world false true)
  = wrapper (sample_app 3) None None None (fails (KeyError "party")) [] []
      (sample_world false true).
Proof.
  apply (X2_retry_transparent (sample_app 3)).
  - vm_compute. discriminate.
  - intros info H. vm_compute in H. discriminate H.
Defined.

(** X3.  With [database_retry = 0] nothing is ever retried: the decorated
    function is called once and its result or error, a database conflict
    included, is that of the call. *)
Theorem X3_retry_zero_single_attempt (app : App) (func : M value) (w : World) :
  database_retry (extension app) = 0%Z ->
  retry_transaction app func w = func w.
Proof.
  intros Hr. unfold retry_transaction. rewrite Hr. cbn.
  apply retry_loop_once. auto.
Qed.

Lemma X3_witness :
  retry_transaction (sample_app 0)
    (wrapper (sample_app 0) (Some (Literal false)) None None (flaky 1) [] [])
    (sample_world false true)
  = wrapper (sample_app 0) (Some (Literal false)) None None (flaky 1) [] []
      (sample_world false true).
Proof.
  apply (X3_retry_zero_single_attempt (sample_app 0)). reflexivity.
Defined.

(** X4.  Whatever the handler and the ambient state do, one invocation
    executes the handler body at most [database_retry + 1] times (never,
    when that count is negative). *)
Theorem X4_handler_runs_bounded app ro_arg user_arg ctx_arg func args kwargs w :
  handler_runs (trace (transaction app ro_arg user_arg ctx_arg func args kwargs w))
    ≤ Z.to_nat (database_retry (extension app) + 1).
Proof.
  unfold transaction, retry_transaction.
  etrans; [apply retry_loop_runs|].
  { intros w'. apply attempt_runs_le, wrapper_shape. }
  unfold range_down. destruct (Z.ltb_spec (database_retry (extension app)) 0).
  - cbn. lia.
  - rewrite countdown_length. lia.
Qed.

(** X5.  When the retries are used up the conflict is raised: if the retry
    count is [n] and each of the [n + 1] attempts ends in a database
    conflict on a transaction that is not read-only, the call raises the
    conflict of the last attempt, after exactly [n + 1] executions of the
    handler body. *)
Theorem X5_conflict_raised_after_last_retry
    app ro_arg user_arg ctx_arg func args kwargs w n info w' :
  conflicts_only (wrapper app ro_arg user_arg ctx_arg func args kwargs) n w info w' ->
  database_retry (extension app) = Z.of_nat n ->
  outcome (transaction app ro_arg user_arg ctx_arg func args kwargs w)
    = Raise (DatabaseOperationalError info) ∧
  final (transaction app ro_arg user_arg ctx_arg func args kwargs w) = w' ∧
  handler_runs (trace (transaction app ro_arg user_arg ctx_arg func args kwargs w))
    = n + 1.
Proof.
  intros Hchain Hn. unfold transaction, retry_transaction.
  rewrite range_down_nonneg, Hn, Nat2Z.id, Nat.add_1_r by lia.
  apply retry_loop_exhausted; [intros w''; apply wrapper_shape|done].
Qed.

Lemma X5_witness :
  outcome (transaction (sample_app 1) (Some (Literal false)) None None (flaky 5)
             [] [] (sample_world false true))
    = Raise (DatabaseOperationalError "could not serialize access") ∧
  final (transaction (sample_app 1) (Some (Literal false)) None None (flaky 5)
           [] [] (sample_world false true))
    = mkWorld true None (sample_txn false true) 2 ∧
  handler_runs (trace (transaction (sample_app 1) (Some (Literal false)) None None
                         (flaky 5) [] [] (sample_world false true))) = 1 + 1.
Proof.
  apply (X5_conflict_raised_after_last_retry
           (sample_app 1) (Some (Literal false)) None None (flaky 5) [] []
           (sample_world false true) 1
           "could not serialize access"
           (mkWorld true None (sample_txn false true) 2)).
  - eapply co_more; [vm_compute; reflexivity..|].
    assert (E : mkWorld true None (sample_txn false true) 2
                = final (wrapper (sample_app 1) (Some (Literal false)) None None
                           (flaky 5) [] []
                           (final (wrapper (sample_app 1) (Some (Literal false))
                                     None None (flaky 5) [] []
                                     (sample_world false true)))))
      by (vm_compute; reflexivity).
    rewrite E. apply co_last. vm_compute. reflexivity.
  - reflexivity.
Defined.

(** ** Events of an attempt, by composition *)

Lemma bind_Forall {A B} (P : Event -> Prop) (m : M A) (k : A -> M B) w :
  Forall P (trace (m w)) ->
  (∀ a, outcome (m w) = Ok a -> Forall P (trace (k a (final (m w))))) ->
  Forall P (trace (bind m k w)).
Proof.
  intros Hm Hk. unfold bind. cbv zeta.
  destruct (outcome (m w)) as [a|e]; [|done].
  run_norm. apply Forall_app; split; [done|by apply Hk].
Qed.

Lemma try_Forall {A} (P : Event -> Prop) (m : M A) h w :
  Forall P (trace (m w)) ->
  (∀ e, Forall P (trace (h e (final (m w))))) ->
  Forall P (trace (try_except m h w)).
Proof.
  intros Hm Hh. unfold try_except. cbv zeta.
  destruct (outcome (m w)) as [a|e]; [done|].
  run_norm. apply Forall_app; split; [done|apply Hh].
Qed.

Lemma scope_Forall {A} (P : Event -> Prop) db u ro ctx (body : M A) w :
  P (EvEnter db u ro ctx) -> Forall P (trace (body w)) ->
  Forall P (trace (conditional_transaction_for_tests db u ro ctx body w)).
Proof.
  intros He Hb. destruct (need_new_transaction w) eqn:Hn.
  - rewrite scope_aborts by done. by repeat constructor.
  - rewrite scope_runs by done. by constructor.
Qed.

Lemma build_context_Forall (P : Event -> Prop) app u context w :
  (∀ db u ro ctx, P (EvEnter db u ro ctx)) ->
  Forall P (trace (build_context app u context w)).
Proof.
  intros He. unfold build_context. apply bind_Forall.
  - destruct (bool_decide _ || context_truthy context); [|constructor].
    apply scope_Forall; [apply He|].
    unfold bind, context_value, get_value, bind, get, ret.
    destruct (context_callback (extension app)), context as [[?|?]|];
      cbn; constructor.
  - intros ctx _.
    by destruct (add_request_run ctx (final
         ((if bool_decide (is_Some (context_callback (extension app)))
              || context_truthy context
           then conditional_transaction_for_tests (TRYTON_DATABASE app) u
                  (Some true) None
                  (transaction_context <-
                     match context_callback (extension app) with
                     | Some cb => get_value (Callable cb)
                     | None => ret ∅
                     end ;;
                   c <- context_value context ;;
                   ret (dict_update transaction_context c))
           else ret ∅) w))) as [(c & ->)|(v & _ & ->)].
Qed.

Lemma materialise_args_quiet {A B} (f : A -> M B) (l : list A) w :
  (∀ a w, (∃ b, f a w = mkRun (Ok b) w []) ∨
          (∃ e, f a w = mkRun (Raise e) w [] ∧
                is_conflict e = false ∧ is_domain e = false)) ->
  trace (mapM_py f l w) = [] ∧ final (mapM_py f l w) = w.
Proof.
  intros Hf. by destruct (mapM_py_pure f l w Hf) as [(bs & ->)|(e & -> & _)].
Qed.

Lemma instanciate_kw_run tryton (nv : string * value) w :
  (∃ b, (v' <- instanciate tryton (snd nv) ;; ret (fst nv, v')) w = mkRun (Ok b) w []) ∨
  (∃ e, (v' <- instanciate tryton (snd nv) ;; ret (fst nv, v')) w = mkRun (Raise e) w [] ∧
        is_conflict e = false ∧ is_domain e = false).
Proof.
  destruct nv as [n v]. cbn [fst snd].
  destruct (instanciate_run tryton v w) as [[v' Hv]|[e [He Hc]]].
  - left. eexists. by erewrite bind_ok by exact Hv.
  - right. exists e. by erewrite bind_raise by exact He.
Qed.

(** The events of one attempt outside the body of the scope: scope
    entries, task submissions, and the entry hook of the cache on runtimes
    before 5.1. *)
Lemma wrapper_Forall_scope (P : Event -> Prop)
    app readonly user context func args kwargs w :
  (∀ db u ro ctx, P (EvEnter db u ro ctx)) ->
  (∀ i, P (EvRunTask i)) ->
  (tuple_lt (trytond_version app) [5; 1]%Z = true -> ∀ db, P (EvCacheClean db)) ->
  (∀ ro, outcome (resolve_readonly readonly w) = Ok ro ->
         Forall P (trace (scope_body app ro func args kwargs w))) ->
  Forall P (trace (wrapper app readonly user context func args kwargs w)).
Proof.
  intros He Ht Hc Hb. unfold wrapper.
  destruct (resolve_user_run app user w) as [u Hu].
  destruct (resolve_readonly_run readonly w) as [ro Hr].
  assert (H0 : ∀ w', Forall P (trace
    (when (tuple_lt (trytond_version app) [5; 1]%Z)
       (conditional_transaction_for_tests (TRYTON_DATABASE app) 0 None None
          (emit (EvCacheClean (TRYTON_DATABASE app)))) w')) ∧
    final (when (tuple_lt (trytond_version app) [5; 1]%Z)
       (conditional_transaction_for_tests (TRYTON_DATABASE app) 0 None None
          (emit (EvCacheClean (TRYTON_DATABASE app)))) w') = w').
  { intros w'. unfold when.
    destruct (tuple_lt (trytond_version app) [5; 1]%Z) eqn:Hv; [|by split].
    destruct (need_new_transaction w') eqn:Hn.
    - rewrite scope_aborts by done. split; [by repeat constructor|done].
    - rewrite scope_runs by done. split; [|done].
      repeat constructor; [apply He|]. by apply (Hc eq_refl). }
  apply bind_Forall; [apply H0|]. intros _ _. rewrite (proj2 (H0 w)).
  apply bind_Forall; [by rewrite Hu|]. intros u' Hu'. rewrite Hu in Hu' |- *.
  injection Hu' as <-. run_norm.
  apply bind_Forall; [by rewrite Hr|]. intros ro' Hr'. rewrite Hr in Hr', Hb |- *.
  injection Hr' as <-. run_norm.
  apply bind_Forall; [by apply build_context_Forall|]. intros ctx Hctx.
  assert (Hfin : final (build_context app u context w) = w).
  { destruct (build_context_run app u context w)
      as (pre & _ & [(c & ->)|(e & -> & _)]); done. }
  rewrite Hfin.
  apply bind_Forall.
  - apply scope_Forall; [apply He|]. by apply Hb.
  - intros v _. apply bind_Forall; [|intros; constructor].
    rewrite run_tasks_run. cbn [trace].
    induction (rev _) as [|i l IH]; constructor; [apply Ht|done].
Qed.

(** The events of the body of the scope: the handler; a commit only when
    the read-only flag is false; the exit hook of the cache only on
    runtimes before 5.1. *)
Lemma scope_body_Forall (P : Event -> Prop) app ro func args kwargs w :
  (∀ r t, P (EvHandler r t)) ->
  (tuple_lt (trytond_version app) [5; 1]%Z = true -> ∀ db, P (EvCacheResets db)) ->
  (ro = false -> P EvCommit) ->
  Forall P (trace (scope_body app ro func args kwargs w)).
Proof.
  intros Hh Hc Hk. unfold scope_body.
  apply bind_Forall.
  - apply try_Forall; [|intros e; constructor].
    destruct (materialise_args_quiet (instanciate (extension app)) args w
                (instanciate_run (extension app))) as [Ht1 Hf1].
    apply bind_Forall; [by rewrite Ht1|]. intros args' _. rewrite Hf1.
    destruct (materialise_args_quiet
                (fun nv => v' <- instanciate (extension app) (snd nv) ;;
                           ret (fst nv, v'))
                kwargs w (instanciate_kw_run (extension app))) as [Ht2 Hf2].
    apply bind_Forall; [by rewrite Ht2|]. intros kwargs' _. rewrite Hf2.
    apply bind_Forall.
    { unfold call. destruct (func args' kwargs' w) as [w1 r]. cbn.
      repeat constructor. apply Hh. }
    intros v _. apply bind_Forall; [constructor|]. intros w2 _.
    apply bind_Forall; [|intros; constructor].
    unfold when. destruct ro; rewrite ?andb_false_r; [constructor|].
    destruct (cursor _); cbn; repeat constructor. by apply Hk.
  - intros v _. apply bind_Forall; [|intros; constructor].
    unfold when.
    destruct (tuple_lt (trytond_version app) [5; 1]%Z) eqn:Hv; [|constructor].
    repeat constructor. by apply (Hc eq_refl).
Qed.

(** The events of one attempt: scope entries, the handler, task
    submissions; cache hooks only on runtimes before 5.1; a commit only
    when the resolved read-only flag is false. *)
Lemma wrapper_Forall (P : Event -> Prop) app readonly user context func args kwargs w :
  (∀ db u ro ctx, P (EvEnter db u ro ctx)) ->
  (∀ r t, P (EvHandler r t)) ->
  (∀ i, P (EvRunTask i)) ->
  (tuple_lt (trytond_version app) [5; 1]%Z = true ->
   ∀ db, P (EvCacheClean db) ∧ P (EvCacheResets db)) ->
  (outcome (resolve_readonly readonly w) = Ok false -> P EvCommit) ->
  Forall P (trace (wrapper app readonly user context func args kwargs w)).
Proof.
  intros He Hh Ht Hc Hk.
  apply wrapper_Forall_scope; [done|done|intros Hv db; by apply Hc|].
  intros ro Hro. apply scope_body_Forall; [done|intros Hv db; by apply Hc|].
  intros ->. by apply Hk.
Qed.

Lemma transaction_Forall (P : Event -> Prop) app readonly user context func args kwargs w :
  (∀ w', Forall P (trace (wrapper app readonly user context func args kwargs w'))) ->
  Forall P (trace (transaction app readonly user context func args kwargs w)).
Proof. intros H. unfold transaction, retry_transaction. by apply retry_loop_Forall. Qed.

Lemma commits_none l : Forall (λ ev, is_commit ev = false) l -> commits l = 0.
Proof.
  induction 1 as [|ev l Hev _ IH]; [done|].
  unfold commits in *. cbn. by rewrite Hev.
Qed.

Lemma attempt_commits_le r : attempt_shape r -> commits (trace r) ≤ 1.
Proof.
  destruct 1 as [pre e w Hpre Hne He|pre e w Hpre|pre db u ro ctx v w resets Hpre Hres];
    destruct (setup_quiet pre Hpre) as (Hc & _ & _); cbn [trace].
  - lia.
  - rewrite commits_app, Hc. cbn. lia.
  - rewrite commits_app, Hc.
    change (commits (?a :: ?b :: ?l)) with (commits l).
    rewrite (epilogue_commits resets db) by done.
    destruct (cursor (txn w) && negb ro); lia.
Qed.

Lemma attempt_raised_final r e t :
  attempt_shape r -> last (trace r) = Some (EvHandler (Raise e) t) ->
  outcome r = Raise (translate e) ∧ txn (final r) = t ∧
  commits (trace r) = 0 ∧ submitted (trace r) = [].
Proof.
  intros Hs Hl. pose proof (last_Some_elem_of _ _ Hl) as Hin.
  destruct (attempt_raised r e t Hs Hin) as [Ho _].
  destruct (attempt_failed r _ Hs Ho) as [Hc Hsub].
  repeat split; [done| |done..].
  destruct Hs as [pre e' w Hpre Hne He|pre e' w Hpre|pre db u ro ctx v w resets Hpre Hres];
    cbn [trace final outcome] in *.
  - by apply (proj1 (Forall_forall _ _) Hpre) in Hin.
  - rewrite last_snoc in Hl. by injection Hl as _ ->.
  - done.
Qed.

(** X6.  Outside the test mode (no [testing_flask] switch, or no
    transaction of a user started), with a retry count of at least 0,
    every call of a decorated handler raises [NameError] for the unbound
    name [database]: the handler is never executed, nothing is committed or
    submitted and the ambient state is unchanged. *)
Theorem X6_outside_tests_name_error
    app ro_arg user_arg ctx_arg func args kwargs w :
  need_new_transaction w = true ->
  (0 <= database_retry (extension app))%Z ->
  outcome (transaction app ro_arg user_arg ctx_arg func args kwargs w)
    = Raise (NameError "database") ∧
  final (transaction app ro_arg user_arg ctx_arg func args kwargs w) = w ∧
  handler_runs (trace (transaction app ro_arg user_arg ctx_arg func args kwargs w)) = 0 ∧
  commits (trace (transaction app ro_arg user_arg ctx_arg func args kwargs w)) = 0 ∧
  submitted (trace (transaction app ro_arg user_arg ctx_arg func args kwargs w)) = [].
Proof.
  intros Hn Hr.
  destruct (wrapper_outside_tests app ro_arg user_arg ctx_arg func args kwargs w Hn)
    as (pre & Hw & Hpre).
  unfold transaction, retry_transaction. rewrite range_down_nonneg by done.
  destruct (countdown_cons (Z.to_nat (database_retry (extension app))))
    as (c & rest & ->).
  rewrite retry_loop_once by (intros info; by rewrite Hw).
  rewrite Hw. cbn [outcome final trace].
  destruct (setup_quiet pre Hpre) as (? & ? & ?). by repeat split.
Qed.

Lemma X6_witness :
  outcome (transaction (sample_app 3) None None None (queues [1]%Z) [] []
             (mkWorld false (Some sample_request) (sample_txn false true) 0))
    = Raise (NameError "database") ∧
  final (transaction (sample_app 3) None None None (queues [1]%Z) [] []
           (mkWorld false (Some sample_request) (sample_txn false true) 0))
    = mkWorld false (Some sample_request) (sample_txn false true) 0 ∧
  handler_runs (trace (transaction (sample_app 3) None None None (queues [1]%Z)
                         [] [] (mkWorld false (Some sample_request)
                                  (sample_txn false true) 0))) = 0 ∧
  commits (trace (transaction (sample_app 3) None None None (queues [1]%Z)
                    [] [] (mkWorld false (Some sample_request)
                             (sample_txn false true) 0))) = 0 ∧
  submitted (trace (transaction (sample_app 3) None None None (queues [1]%Z)
                      [] [] (mkWorld false (Some sample_request)
                               (sample_txn false true) 0))) = [].
Proof.
  apply (X6_outside_tests_name_error (sample_app 3) None None None
           (queues [1]%Z) [] []
           (mkWorld false (Some sample_request) (sample_txn false true) 0)).
  - reflexivity.
  - vm_compute. discriminate.
Defined.

(** X7.  One invocation calls [cursor.commit()] at most once, however many
    attempts it takes. *)
Theorem X7_at_most_one_commit app ro_arg user_arg ctx_arg func args kwargs w :
  commits (trace (transaction app ro_arg user_arg ctx_arg func args kwargs w)) ≤ 1.
Proof.
  destruct (transaction_split app ro_arg user_arg ctx_arg func args kwargs w)
    as [->|(R & L & -> & HR & HL)]; [cbn; lia|].
  destruct (retried_quiet R HR) as [HcR _].
  rewrite commits_app, HcR. apply (attempt_commits_le _ HL).
Qed.

(** X8.  A handler decorated with [readonly=True] is never committed by the
    wrapper, whatever the request, the transaction object and the handler
    do. *)
Theorem X8_readonly_never_commits app user_arg ctx_arg func args kwargs w :
  commits (trace (transaction app (Some (Literal true)) user_arg ctx_arg
                    func args kwargs w)) = 0.
Proof.
  apply commits_none, transaction_Forall. intros w'.
  by apply wrapper_Forall.
Qed.

(** X9.  When an invocation ends with the handler raising, the transaction
    object is left exactly as the handler left it: the tasks it queued are
    neither submitted nor removed, and nothing was committed. *)
Theorem X9_failure_leaves_queue
    app ro_arg user_arg ctx_arg func args kwargs w e t :
  last (trace (transaction app ro_arg user_arg ctx_arg func args kwargs w))
    = Some (EvHandler (Raise e) t) ->
  txn (final (transaction app ro_arg user_arg ctx_arg func args kwargs w)) = t ∧
  submitted (trace (transaction app ro_arg user_arg ctx_arg func args kwargs w)) = [] ∧
  commits (trace (transaction app ro_arg user_arg ctx_arg func args kwargs w)) = 0.
Proof.
  intros Hl.
  destruct (transaction_split app ro_arg user_arg ctx_arg func args kwargs w)
    as [Hnil|(R & L & Ht & HR & HL)].
  { by rewrite Hnil in Hl. }
  rewrite Ht in Hl |- *.
  rewrite last_app_nonempty in Hl by (by apply (attempt_nonempty _ HL)).
  destruct (attempt_raised_final _ e t HL Hl) as (_ & Hf & Hc & Hs).
  cbn [outcome final trace] in Hf, Hc, Hs.
  destruct (retried_quiet R HR) as [HcR HsR].
  by rewrite Hf, submitted_app, commits_app, HcR, HsR, Hc, Hs.
Qed.

Lemma X9_witness :
  txn (final (transaction (sample_app 3) (Some (Literal false)) None None
                (fun a k w => ((queues [4; 5]%Z a k w).1, Raise (UserError "No stock")))
                [] [] (sample_world false true)))
    = mkTransaction (Some 1%Z) false true [4; 5]%Z ∧
  submitted (trace (transaction (sample_app 3) (Some (Literal false)) None None
                (fun a k w => ((queues [4; 5]%Z a k w).1, Raise (UserError "No stock")))
                [] [] (sample_world false true))) = [] ∧
  commits (trace (transaction (sample_app 3) (Some (Literal false)) None None
                (fun a k w => ((queues [4; 5]%Z a k w).1, Raise (UserError "No stock")))
                [] [] (sample_world false true))) = 0.
Proof.
  apply (X9_failure_leaves_queue (sample_app 3) (Some (Literal false)) None None
           (fun a k w => ((queues [4; 5]%Z a k w).1, Raise (UserError "No stock")))
           [] [] (sample_world false true) (UserError "No stock")
           (mkTransaction (Some 1%Z) false true [4; 5]%Z)).
  vm_compute. reflexivity.
Defined.

(** X10.  On a runtime of version 5.1 or later the wrapper never calls a
    cache hook: neither [Cache.clean] nor [Cache.resets] appears in any
    invocation. *)
Theorem X10_no_cache_hooks_from_5_1
    app ro_arg user_arg ctx_arg func args kwargs w :
  tuple_lt (trytond_version app) [5; 1]%Z = false ->
  Forall (λ ev, is_cache ev = false)
    (trace (transaction app ro_arg user_arg ctx_arg func args kwargs w)).
Proof.
  intros Hv. apply transaction_Forall. intros w'.
  apply wrapper_Forall; try done. congruence.
Qed.

Lemma X10_witness :
  Forall (λ ev, is_cache ev = false)
    (trace (transaction (mkApp (mkTryton None 3 []) "db" 0 [5; 1; 0]%Z)
              (Some (Literal false)) None None (queues [1]%Z) [] []
              (sample_world false true))).
Proof.
  apply (X10_no_cache_hooks_from_5_1 (mkApp (mkTryton None 3 []) "db" 0 [5; 1; 0]%Z)).
  reflexivity.
Defined.

(** X11.  [Cache.resets] is called only in an invocation whose handler has
    returned and which therefore succeeds; an invocation that ends in an
    error never resets the cache. *)
Theorem X11_cache_reset_only_after_return
    app ro_arg user_arg ctx_arg func args kwargs w db :
  EvCacheResets db
    ∈ trace (transaction app ro_arg user_arg ctx_arg func args kwargs w) ->
  ∃ v t,
    EvHandler (Ok v) t
      ∈ trace (transaction app ro_arg user_arg ctx_arg func args kwargs w) ∧
    outcome (transaction app ro_arg user_arg ctx_arg func args kwargs w) = Ok v.
Proof.
  intros Hin.
  destruct (transaction_split app ro_arg user_arg ctx_arg func args kwargs w)
    as [Hnil|(R & L & Ht & HR & HL)].
  { rewrite Hnil in Hin. by apply elem_of_nil in Hin. }
  rewrite Ht in Hin |- *. apply elem_of_app in Hin as [Hin|Hin].
  { by apply (proj1 (Forall_forall _ _) HR) in Hin. }
  remember (mkRun _ _ L) as r eqn:Hr.
  assert (HL' : L = trace r) by (by subst r).
  assert (Ho : outcome (transaction app ro_arg user_arg ctx_arg func args kwargs w)
               = outcome r) by (by subst r).
  rewrite Ho, HL' in *. clear Hr HL' Ho.
  destruct HL as [pre e w1 Hpre Hne He|pre e w1 Hpre|pre db' u ro ctx v w1 resets Hpre Hres];
    cbn [trace outcome] in *.
  - by apply (proj1 (Forall_forall _ _) Hpre) in Hin.
  - apply elem_of_app in Hin as [Hin|Hin].
    + by apply (proj1 (Forall_forall _ _) Hpre) in Hin.
    + by apply list_elem_of_singleton in Hin.
  - exists v, (txn w1). split; [|done].
    rewrite !elem_of_app, !elem_of_cons. auto.
Qed.

Lemma X11_witness :
  ∃ v t,
    EvHandler (Ok v) t
      ∈ trace (transaction (mkApp (mkTryton None 3 []) "db" 0 [5; 0; 12]%Z)
                 (Some (Literal false)) None None (queues []) [] []
                 (sample_world false true)) ∧
    outcome (transaction (mkApp (mkTryton None 3 []) "db" 0 [5; 0; 12]%Z)
               (Some (Literal false)) None None (queues []) [] []
               (sample_world false true)) = Ok v.
Proof.
  apply (X11_cache_reset_only_after_return
           (mkApp (mkTryton None 3 []) "db" 0 [5; 0; 12]%Z)
           (Some (Literal false)) None None (queues []) [] []
           (sample_world false true) "db").
  vm_compute. do 5 apply list_elem_of_further. apply list_elem_of_here.
Defined.

(** ** The transaction context *)

Lemma configured_context_lookup app context w k :
  configured_context app context w !! k =
    match decorator_context context w !! k with
    | Some v => Some v
    | None => callback_context app w !! k
    end.
Proof.
  unfold configured_context, decorator_context, callback_context, dict_update.
  destruct (bool_decide (is_Some (context_callback (extension app)))
            || context_truthy context) eqn:Hc.
  - rewrite lookup_union. by destruct (_ !! k), (_ !! k).
  - apply orb_false_iff in Hc as [Hcb Hctx].
    apply bool_decide_eq_false in Hcb.
    destruct (context_callback (extension app)) as [cb|]; [by destruct Hcb|].
    destruct context as [[d|f]|]; cbn in Hctx; [|done|by rewrite lookup_empty].
    unfold dict_truthy in Hctx. apply negb_false_iff, bool_decide_eq_true in Hctx.
    subst d. by rewrite lookup_empty.
Qed.

Lemma wrapper_context app readonly user context func args kwargs w db u ro ctx :
  EvEnter db u ro (Some ctx)
    ∈ trace (wrapper app readonly user context func args kwargs w) ->
  ctx = <["_request" :=
            VDict (dict_update (supplied_request (configured_context app context w))
                               (request_fields w))]>
          (configured_context app context w).
Proof.
  intros Hin. apply wrapper_entry in Hin as [_ Hctx].
  by apply build_context_ok in Hctx.
Qed.

(** X12.  In the context an attempt enters the transaction scope with,
    every key other than ['_request'] has the value the decorator's context
    gives it, and the value of the callback's context only when the
    decorator's has no such key: the decorator's context is applied over
    the callback's. *)
Theorem X12_decorator_context_over_callback
    app ro_arg user_arg ctx_arg func args kwargs w db u ro ctx k :
  EvEnter db u ro (Some ctx)
    ∈ trace (wrapper app ro_arg user_arg ctx_arg func args kwargs w) ->
  k ≠ "_request" ->
  ctx !! k =
    match decorator_context ctx_arg w !! k with
    | Some v => Some v
    | None => callback_context app w !! k
    end.
Proof.
  intros Hin Hk. apply wrapper_context in Hin as ->.
  rewrite lookup_insert_ne by done. apply configured_context_lookup.
Qed.

Lemma X12_witness :
  (<["_request" := VDict ∅]>
     (<["company" := VInt 2]> (<["language" := VStr "fr"]> (∅ : dict))))
    !! "company"
  = match decorator_context (Some (Literal (<["company" := VInt 2]> ∅)))
            (sample_world false true) !! "company" with
    | Some v => Some v
    | None =>
        callback_context
          (mkApp (mkTryton
                    (Some (λ _, <["company" := VInt 1]>
                                  (<["language" := VStr "fr"]> ∅)))
                    3 []) "db" 0 [5; 2]%Z)
          (sample_world false true) !! "company"
    end.
Proof.
  apply (X12_decorator_context_over_callback
           (mkApp (mkTryton
                     (Some (λ _, <["company" := VInt 1]>
                                   (<["language" := VStr "fr"]> ∅)))
                     3 []) "db" 0 [5; 2]%Z)
           None None (Some (Literal (<["company" := VInt 2]> ∅)))
           (queues []) [] [] (sample_world false true)
           "db" 0%Z (Some true)).
  - vm_compute. apply list_elem_of_further, list_elem_of_here.
  - done.
Defined.

(** X13.  The ['_request'] mapping of that context keeps every entry the
    configured context supplied under a key other than the four request
    fields, whether a request is bound or not. *)
Theorem X13_request_mapping_keeps_other_keys
    app ro_arg user_arg ctx_arg func args kwargs w db u ro ctx k :
  EvEnter db u ro (Some ctx)
    ∈ trace (wrapper app ro_arg user_arg ctx_arg func args kwargs w) ->
  k ∉ request_keys ->
  ∃ d, ctx !! "_request" = Some (VDict d) ∧
       d !! k = supplied_request (configured_context app ctx_arg w) !! k.
Proof.
  intros Hin Hk. apply wrapper_context in Hin as ->.
  eexists. split; [apply lookup_insert_eq|].
  unfold dict_update, request_fields, request_keys in *.
  destruct (request w) as [r|]; [|by rewrite (left_id_L ∅ (∪))].
  rewrite lookup_union_r; [done|].
  rewrite !not_elem_of_cons in Hk. destruct Hk as (? & ? & ? & ? & _).
  by rewrite !lookup_insert_ne.
Qed.

Lemma X13_witness :
  ∃ d, (<["_request" :=
            VDict (dict_update tenant_request
                     (request_fields
                        (mkWorld true (Some sample_request) (sample_txn false true) 0)))]>
          tenant_context) !! "_request" = Some (VDict d) ∧
       d !! "company"
       = supplied_request
           (configured_context (sample_app 3) (Some (Literal tenant_context))
              (mkWorld true (Some sample_request) (sample_txn false true) 0))
           !! "company".
Proof.
  apply (X13_request_mapping_keeps_other_keys
           (sample_app 3) None None (Some (Literal tenant_context))
           (queues []) [] []
           (mkWorld true (Some sample_request) (sample_txn false true) 0)
           "db" 0%Z (Some false)).
  - vm_compute. apply list_elem_of_further, list_elem_of_here.
  - unfold request_keys. rewrite !not_elem_of_cons. repeat split; try done.
    apply not_elem_of_nil.
Defined.

Lemma handler_runs_none l : Forall (λ ev, is_handler ev = false) l -> handler_runs l = 0.
Proof.
  induction 1 as [|ev l Hev _ IH]; [done|].
  unfold handler_runs in *. cbn. by rewrite Hev.
Qed.

(** An attempt whose trace shows no call of the handler ended in an error
    that is not a database conflict, and left the ambient state alone. *)
Lemma wrapper_without_handler app readonly user context func args kwargs w :
  Forall (λ ev, is_handler ev = false)
    (trace (wrapper app readonly user context func args kwargs w)) ->
  ∃ e, outcome (wrapper app readonly user context func args kwargs w) = Raise e ∧
       is_conflict e = false ∧
       final (wrapper app readonly user context func args kwargs w) = w.
Proof.
  intros Hfree.
  destruct (wrapper_run app readonly user context func args kwargs w)
    as (pre & u & ro & _ & _ & _ & H).
  destruct H as [(e & Hw & _ & He)
                |(c & _ & [(e & Hw & He)|[(e & w1 & Hw)|(v & w1 & rs & Hw & _)]])];
    rewrite Hw in Hfree |- *; cbn [outcome final trace] in *.
  - by exists e.
  - by exists e.
  - apply Forall_app in Hfree as [_ Hfree]. by apply Forall_cons in Hfree as [? _].
  - apply Forall_app in Hfree as [_ Hfree]. apply Forall_cons in Hfree as [_ Hfree].
    by apply Forall_cons in Hfree as [? _].
Qed.

Lemma transaction_single_attempt app readonly user context func args kwargs w e :
  (0 <= database_retry (extension app))%Z ->
  outcome (wrapper app readonly user context func args kwargs w) = Raise e ->
  is_conflict e = false ->
  transaction app readonly user context func args kwargs w
    = wrapper app readonly user context func args kwargs w.
Proof.
  intros Hr Ho He. unfold transaction, retry_transaction.
  rewrite range_down_nonneg by done.
  destruct (countdown_cons (Z.to_nat (database_retry (extension app))))
    as (c & rest & ->).
  apply retry_loop_once. intros info Hi. rewrite Ho in Hi.
  injection Hi as ->. done.
Qed.

(** X14.  If the configured context carries under ['_request'] a value
    that is not a mapping, the call fails in the test mode with
    [AttributeError] while the context is built: the handler is never
    executed and the ambient state is unchanged. *)
Theorem X14_request_entry_not_a_mapping
    app ro_arg user_arg ctx_arg func args kwargs w v :
  need_new_transaction w = false ->
  (0 <= database_retry (extension app))%Z ->
  configured_context app ctx_arg w !! "_request" = Some v ->
  (∀ d, v ≠ VDict d) ->
  outcome (transaction app ro_arg user_arg ctx_arg func args kwargs w)
    = Raise (AttributeError "update") ∧
  final (transaction app ro_arg user_arg ctx_arg func args kwargs w) = w ∧
  handler_runs (trace (transaction app ro_arg user_arg ctx_arg func args kwargs w)) = 0.
Proof.
  intros Hn Hr Hv Hnd.
  assert (Hb : ∀ u, ∃ pre,
    build_context app u ctx_arg w = mkRun (Raise (AttributeError "update")) w pre ∧
    Forall (λ ev, is_handler ev = false) pre).
  { intros u. unfold build_context. unfold configured_context in Hv.
    destruct (bool_decide (is_Some (context_callback (extension app)))
              || context_truthy ctx_arg); [|by rewrite lookup_empty in Hv].
    set (base := dict_update _ _) in Hv.
    set (body := (transaction_context <- _ ;; _ <- _ ;; _)%py).
    assert (Hbody : body w = mkRun (Ok base) w []).
    { unfold base, body, bind, context_value, get_value, bind, get, ret.
      by destruct (context_callback (extension app)), ctx_arg as [[?|?]|]. }
    eexists. erewrite bind_ok
      by (rewrite scope_runs by done; rewrite Hbody; reflexivity).
    run_norm. unfold add_request, bind, get. run_norm. rewrite Hv.
    split.
    - destruct v; try reflexivity. by destruct (Hnd _ eq_refl).
    - cbn. by repeat constructor. }
  assert (Hw : ∃ pre,
    wrapper app ro_arg user_arg ctx_arg func args kwargs w
      = mkRun (Raise (AttributeError "update")) w pre ∧
    Forall (λ ev, is_handler ev = false) pre).
  { unfold wrapper.
    destruct (resolve_user_run app user_arg w) as [u Hu].
    destruct (resolve_readonly_run ro_arg w) as [ro Hro].
    destruct (Hb u) as (pre & Hbu & Hpre).
    assert (H0 : ∃ pre0,
      when (tuple_lt (trytond_version app) [5; 1]%Z)
        (conditional_transaction_for_tests (TRYTON_DATABASE app) 0 None None
           (emit (EvCacheClean (TRYTON_DATABASE app)))) w
        = mkRun (Ok tt) w pre0 ∧ Forall (λ ev, is_handler ev = false) pre0).
    { unfold when. destruct (tuple_lt _ _).
      - eexists. rewrite scope_runs by done. split; [reflexivity|].
        by repeat constructor.
      - by exists []. }
    destruct H0 as (pre0 & H0 & Hpre0).
    eexists. erewrite bind_ok by exact H0. erewrite bind_ok by exact Hu.
    erewrite bind_ok by exact Hro. erewrite bind_raise by exact Hbu.
    split; [reflexivity|]. cbn [List.app]. by apply Forall_app. }
  destruct Hw as (pre & Hw & Hpre).
  rewrite (transaction_single_attempt _ _ _ _ _ _ _ _ (AttributeError "update"))
    by (done || by rewrite Hw).
  rewrite Hw. cbn [outcome final trace]. by rewrite handler_runs_none.
Qed.

Lemma X14_witness :
  outcome (transaction (sample_app 3) None None
             (Some (Literal (<["_request" := VStr "10.0.0.7"]> ∅)))
             (queues []) [] [] (sample_world false true))
    = Raise (AttributeError "update") ∧
  final (transaction (sample_app 3) None None
           (Some (Literal (<["_request" := VStr "10.0.0.7"]> ∅)))
           (queues []) [] [] (sample_world false true))
    = sample_world false true ∧
  handler_runs (trace (transaction (sample_app 3) None None
                         (Some (Literal (<["_request" := VStr "10.0.0.7"]> ∅)))
                         (queues []) [] [] (sample_world false true))) = 0.
Proof.
  apply (X14_request_entry_not_a_mapping (sample_app 3) None None
           (Some (Literal (<["_request" := VStr "10.0.0.7"]> ∅)))
           (queues []) [] [] (sample_world false true) (VStr "10.0.0.7")).
  - reflexivity.
  - vm_compute. discriminate.
  - vm_compute. reflexivity.
  - intros d. discriminate.
Defined.

(** ** Materialisation of the arguments *)

Lemma instanciate_materialise tryton v w :
  materialisable tryton v ->
  instanciate tryton v w = mkRun (Ok (materialise v)) w [].
Proof.
  destruct v as [| | | | | | |[m ids|m ids]]; try done; cbn [materialisable].
  - intros Hm. unfold instanciate, proxy_call. cbn [proxy_model].
    by rewrite bool_decide_eq_true_2.
  - intros [Hm Hids]. unfold instanciate, proxy_call. cbn [proxy_model].
    rewrite bool_decide_eq_true_2 by done. by destruct ids.
Qed.

Lemma instanciate_unknown tryton p w :
  proxy_model p ∉ pool tryton ->
  instanciate tryton (VProxy p) w = mkRun (Raise (KeyError (proxy_model p))) w [].
Proof.
  intros Hm. unfold instanciate, proxy_call. by rewrite bool_decide_eq_false_2.
Qed.

Lemma mapM_materialise tryton args w :
  Forall (materialisable tryton) args ->
  mapM_py (instanciate tryton) args w = mkRun (Ok (map materialise args)) w [].
Proof.
  induction 1 as [|v args Hv _ IH]; [done|]. cbn [mapM_py map].
  erewrite bind_ok by (by apply instanciate_materialise).
  run_norm. erewrite bind_ok by exact IH. reflexivity.
Qed.

Lemma mapM_materialise_kw tryton (kwargs : list (string * value)) w :
  Forall (λ nv, materialisable tryton nv.2) kwargs ->
  mapM_py (fun nv => v' <- instanciate tryton (snd nv) ;; ret (fst nv, v')) kwargs w
    = mkRun (Ok (map (λ nv, (nv.1, materialise nv.2)) kwargs)) w [].
Proof.
  induction 1 as [|[n v] kwargs Hv _ IH]; [done|]. cbn [mapM_py map fst snd] in *.
  erewrite bind_ok.
  2:{ erewrite bind_ok by (by apply instanciate_materialise). reflexivity. }
  run_norm. erewrite bind_ok by exact IH. reflexivity.
Qed.

Lemma mapM_unknown tryton args p w :
  VProxy p ∈ args -> proxy_model p ∉ pool tryton ->
  ∃ e, mapM_py (instanciate tryton) args w = mkRun (Raise e) w [] ∧
       is_conflict e = false ∧ is_domain e = false.
Proof.
  intros Hin Hm.
  destruct (mapM_py_pure (instanciate tryton) args w (instanciate_run tryton))
    as [(bs & Hok)|H]; [|done].
  exfalso. revert bs w Hok.
  induction args as [|v args IH]; intros bs w Hok; [by apply elem_of_nil in Hin|].
  cbn [mapM_py] in Hok.
  apply elem_of_cons in Hin as [<-|Hin].
  - by erewrite bind_raise in Hok by (by apply instanciate_unknown).
  - destruct (instanciate_run tryton v w) as [(v' & Hv)|(e & Hv & _)].
    + erewrite bind_ok in Hok by exact Hv. run_norm.
      destruct (mapM_py_pure (instanciate tryton) args w (instanciate_run tryton))
        as [(bs' & Hok')|(e & Hr & _)].
      * by apply (IH Hin bs' w).
      * by erewrite bind_raise in Hok by exact Hr.
    + by erewrite bind_raise in Hok by exact Hv.
Qed.

(** X15.  If a positional argument is a reference to a model the pool does
    not know, the call fails (with a retry count of at least 0) before the
    handler is executed: it raises an error that is not a database
    conflict, commits nothing and leaves the ambient state unchanged. *)
Theorem X15_unknown_model_fails_before_handler
    app ro_arg user_arg ctx_arg func args kwargs w p :
  VProxy p ∈ args ->
  proxy_model p ∉ pool (extension app) ->
  (0 <= database_retry (extension app))%Z ->
  (∃ e, outcome (transaction app ro_arg user_arg ctx_arg func args kwargs w) = Raise e ∧
        is_conflict e = false) ∧
  final (transaction app ro_arg user_arg ctx_arg func args kwargs w) = w ∧
  handler_runs (trace (transaction app ro_arg user_arg ctx_arg func args kwargs w)) = 0 ∧
  commits (trace (transaction app ro_arg user_arg ctx_arg func args kwargs w)) = 0.
Proof.
  intros Hin Hm Hr.
  assert (Hfree : Forall (λ ev, is_handler ev = false ∧ is_commit ev = false)
            (trace (wrapper app ro_arg user_arg ctx_arg func args kwargs w))).
  { apply wrapper_Forall_scope; try done. intros ro _. unfold scope_body.
    destruct (mapM_unknown (extension app) args p w Hin Hm) as (e & He & _).
    erewrite bind_raise; [constructor|].
    erewrite try_raise by (erewrite bind_raise by exact He; reflexivity).
    reflexivity. }
  destruct (wrapper_without_handler app ro_arg user_arg ctx_arg func args kwargs w)
    as (e & Ho & He & Hf).
  { eapply Forall_impl; [exact Hfree|]. by intros ev [? _]. }
  rewrite (transaction_single_attempt _ _ _ _ _ _ _ _ e) by done.
  split; [by exists e|]. split; [done|]. split.
  - apply handler_runs_none. eapply Forall_impl; [exact Hfree|]. by intros ev [? _].
  - apply commits_none. eapply Forall_impl; [exact Hfree|]. by intros ev [_ ?].
Qed.

Lemma X15_witness :
  (∃ e, outcome (transaction (sample_app 3) (Some (Literal false)) None None
                   (queues [1]%Z) [VInt 7; VProxy (_RecordProxy "party.party" 4)] []
                   (sample_world false true)) = Raise e ∧
        is_conflict e = false) ∧
  final (transaction (sample_app 3) (Some (Literal false)) None None
           (queues [1]%Z) [VInt 7; VProxy (_RecordProxy "party.party" 4)] []
           (sample_world false true)) = sample_world false true ∧
  handler_runs (trace (transaction (sample_app 3) (Some (Literal false)) None None
                         (queues [1]%Z)
                         [VInt 7; VProxy (_RecordProxy "party.party" 4)] []
                         (sample_world false true))) = 0 ∧
  commits (trace (transaction (sample_app 3) (Some (Literal false)) None None
                    (queues [1]%Z)
                    [VInt 7; VProxy (_RecordProxy "party.party" 4)] []
                    (sample_world false true))) = 0.
Proof.
  apply (X15_unknown_model_fails_before_handler
           (sample_app 3) (Some (Literal false)) None None (queues [1]%Z)
           [VInt 7; VProxy (_RecordProxy "party.party" 4)] []
           (sample_world false true) (_RecordProxy "party.party" 4)).
  - apply list_elem_of_further, list_elem_of_here.
  - cbn. rewrite not_elem_of_cons. split; [done|apply not_elem_of_nil].
  - vm_compute. discriminate.
Defined.

(** ** The handler's arguments *)

Lemma bind_ext {A B} (m : M A) (k k' : A -> M B) w :
  (∀ a w', k a w' = k' a w') -> bind m k w = bind m k' w.
Proof. intros H. unfold bind. cbv zeta. destruct (outcome (m w)); by rewrite ?H. Qed.

Lemma bind_ext_l {A B} (m m' : M A) (k : A -> M B) w :
  m w = m' w -> bind m k w = bind m' k w.
Proof. intros H. unfold bind. by rewrite H. Qed.

Lemma scope_ext {A} db u ro ctx (body body' : M A) w :
  body w = body' w ->
  conditional_transaction_for_tests db u ro ctx body w
    = conditional_transaction_for_tests db u ro ctx body' w.
Proof.
  intros H. destruct (need_new_transaction w) eqn:Hn.
  - by rewrite !scope_aborts.
  - by rewrite !scope_runs, H.
Qed.

Lemma retry_loop_ext (func func' : M value) counts :
  (∀ w, func w = func' w) ->
  ∀ w, retry_loop func counts w = retry_loop func' counts w.
Proof.
  intros H. induction counts as [|c rest IH]; intros w; [done|].
  cbn [retry_loop]. unfold try_except. rewrite H. cbv zeta.
  destruct (outcome (func' w)) as [v|e]; [done|].
  destruct (is_conflict e); [|done].
  unfold bind, get. run_norm.
  destruct (negb (c =? 0)%Z && negb (readonly (txn (final (func' w)))));
    [by rewrite IH|done].
Qed.

(** X16.  The handler is called with its arguments materialised: when
    every reference among the positional and keyword arguments is to a
    model the pool knows, decorating [func] and calling it with those
    arguments is the same as decorating the function that calls [func] on
    the records of the references, in the order of their ids, and on the
    other arguments unchanged. *)
Theorem X16_handler_receives_records
    app ro_arg user_arg ctx_arg (func : Handler) args kwargs w :
  Forall (materialisable (extension app)) args ->
  Forall (λ nv, materialisable (extension app) nv.2) kwargs ->
  transaction app ro_arg user_arg ctx_arg func args kwargs w
  = transaction app ro_arg user_arg ctx_arg
      (fun _ _ => func (map materialise args)
                       (map (λ nv, (nv.1, materialise nv.2)) kwargs))
      [] [] w.
Proof.
  intros Ha Hk. unfold transaction, retry_transaction.
  apply retry_loop_ext. clear w. intros w. unfold wrapper.
  apply bind_ext. intros _ w1. apply bind_ext. intros u w2.
  apply bind_ext. intros ro w3. apply bind_ext. intros ctx w4.
  apply bind_ext_l, scope_ext. unfold scope_body.
  apply bind_ext_l. unfold try_except. f_equal.
  erewrite bind_ok by (by apply mapM_materialise).
  erewrite bind_ok by (by apply mapM_materialise_kw).
  erewrite (bind_ok (mapM_py _ [])) by reflexivity.
  erewrite (bind_ok (mapM_py _ [])) by reflexivity.
  reflexivity.
Qed.

Lemma X16_witness :
  transaction (sample_app 3) None None None
    (fun a _ w => (w, Ok (VList a)))
    [VProxy (_RecordsProxy "res.user" [3; 5; 9]%Z); VStr "x"]
    [("user", VProxy (_RecordProxy "res.user" 42))]
    (sample_world false true)
  = transaction (sample_app 3) None None None
      (fun _ _ =>
         (fun a _ w => (w, Ok (VList a)))
           (map materialise [VProxy (_RecordsProxy "res.user" [3; 5; 9]%Z); VStr "x"])
           (map (λ nv : string * value, (nv.1, materialise nv.2))
              [("user", VProxy (_RecordProxy "res.user" 42))]))
      [] [] (sample_world false true).
Proof.
  apply (X16_handler_receives_records (sample_app 3) None None None
           (fun a _ w => (w, Ok (VList a)))
           [VProxy (_RecordsProxy "res.user" [3; 5; 9]%Z); VStr "x"]
           [("user", VProxy (_RecordProxy "res.user" 42))]
           (sample_world false true)).
  - repeat constructor.
  - repeat constructor; done.
Defined.

(** ** The URL converters *)

Lemma digit_of_range c d : digit_of c = Some d -> (0 <= d < 10)%Z.
Proof.
  unfold digit_of.
  destruct (48 <=? nat_of_ascii c)%nat eqn:H1; [|done].
  destruct (nat_of_ascii c <=? 57)%nat eqn:H2; [|done].
  apply Nat.leb_le in H1, H2. cbn. intros [= <-]. lia.
Qed.

Lemma is_digit_Some c : is_digit c = true -> ∃ d, digit_of c = Some d ∧ (0 <= d < 10)%Z.
Proof.
  unfold is_digit. destruct (digit_of c) as [d|] eqn:Hd; [|done].
  intros _. exists d. split; [done|]. by apply (digit_of_range c).
Qed.

Lemma is_digit_not_comma c : is_digit c = true -> Ascii.eqb c ","%char = false.
Proof.
  intros Hc. destruct (Ascii.eqb c ","%char) eqn:E; [|done].
  apply Ascii.eqb_eq in E as ->. by vm_compute in Hc.
Qed.

Lemma int_digits_digits s : ∀ acc,
  digits s = true -> (0 <= acc)%Z ->
  ∃ n, int_digits acc s = Some n ∧ (0 <= n)%Z.
Proof.
  induction s as [|c s IH]; intros acc Hs Hacc; cbn in *.
  - by exists acc.
  - apply andb_true_iff in Hs as [Hc Hs].
    destruct (is_digit_Some c Hc) as (d & -> & Hd). apply IH; [done|lia].
Qed.

Lemma py_int_regex s :
  RecordConverter.regex s = true -> ∃ n, py_int s = Some n ∧ (0 <= n)%Z.
Proof.
  destruct s as [|c s]; [done|]. intros Hs. by apply int_digits_digits.
Qed.







Lemma string_app_cons c (a b : string) : String c a +:+ b = String c (a +:+ b).
Proof. reflexivity. Qed.

Lemma string_app_nil_r (s : string) : s +:+ "" = s.
Proof. induction s as [|c s IH]; [done|]. by rewrite string_app_cons, IH. Qed.

Lemma rev_app_digits a : ∀ b,
  digits (String.rev_app a b) = digits a && digits b.
Proof.
  induction a as [|c a IH]; intros b; [done|]. cbn. rewrite IH. cbn.
  by destruct (is_digit c), (digits a).
Qed.

Lemma rev_app_empty a : ∀ b, String.rev_app a b = "" -> a = "" ∧ b = "".
Proof.
  induction a as [|c a IH]; intros b; [done|]. cbn. intros H.
  by apply IH in H as [_ ?].
Qed.








Lemma record_regex_digits f :
  RecordConverter.regex f = true ↔ digits f = true ∧ f ≠ "".
Proof.
  destruct f as [|c f]; cbn.
  - split; [done|]. by intros [_ ?].
  - split; [done|]. by intros [? _].
Qed.


(** Every field of a value the pattern of [records] accepts is accepted
    by the pattern of [record]. *)
Lemma regex_split s : ∀ cur fresh,
  digits cur = true -> (fresh = true ↔ cur = "") ->
  RecordsConverter.regex_from fresh s = true ->
  Forall (λ f, RecordConverter.regex f = true) (split_comma_aux cur s).
Proof.
  assert (Hfield : ∀ cur, digits cur = true -> cur ≠ "" ->
            RecordConverter.regex (String.rev cur) = true).
  { intros cur Hd Hne. apply record_regex_digits. split.
    - unfold String.rev. by rewrite rev_app_digits, Hd.
    - intros H. by apply rev_app_empty in H as [? _]. }
  induction s as [|c s IH]; intros cur fresh Hcur Hfresh Hs; cbn in Hs |- *.
  - apply Forall_singleton, Hfield; [done|].
    intros ->. destruct fresh; [done|]. by destruct Hfresh as [_ H]; discriminate H.
  - destruct (is_digit c) eqn:Hc.
    + rewrite (is_digit_not_comma c Hc). apply (IH _ false); [|done|done].
      cbn. by rewrite Hc.
    + destruct (Ascii.eqb c ",") eqn:Hcomma; [|done].
      apply andb_true_iff in Hs as [Hf Hs]. destruct fresh; [done|].
      apply Forall_cons. split.
      * apply Hfield; [done|]. intros ->. by destruct Hfresh as [_ H]; discriminate H.
      * by apply (IH "" true).
Qed.

Lemma mapM_py_int_regex fields :
  Forall (λ f, RecordConverter.regex f = true) fields ->
  ∃ ids, mapM py_int fields = Some ids ∧ Forall (λ i, 0 <= i)%Z ids ∧
         length ids = length fields.
Proof.
  induction 1 as [|f fields Hf _ (ids & Hids & Hpos & Hlen)]; [by exists []|].
  destruct (py_int_regex f Hf) as (n & Hn & Hn0).
  exists (n :: ids). cbn. rewrite Hn, Hids. cbn. repeat split; [|by f_equal].
  by constructor.
Qed.


Lemma int_digits_ge s : ∀ acc n,
  int_digits acc s = Some n -> (0 <= acc)%Z -> (acc <= n)%Z.
Proof.
  induction s as [|c s IH]; intros acc n; cbn.
  - intros [= <-]. lia.
  - destruct (digit_of c) as [d|] eqn:Hd; [|done]. intros Hn Hacc.
    apply digit_of_range in Hd. apply IH in Hn; lia.
Qed.

Lemma pretty_N_char_of_digit c d :
  digit_of c = Some d -> pretty_N_char (Z.to_N d) = c.
Proof.
  destruct c as [[] [] [] [] [] [] [] []]; vm_compute; intros [= <-]; reflexivity.
Qed.

(** [str] writes back the digits [int] read, from a non-zero prefix on. *)
Lemma pretty_N_go_int_digits s : ∀ acc rest n,
  (0 < acc)%Z -> int_digits acc s = Some n ->
  pretty_N_go (Z.to_N n) rest = pretty_N_go (Z.to_N acc) (s +:+ rest).
Proof.
  induction s as [|c s IH]; intros acc rest n Hacc;
    rewrite ?string_app_cons; cbn [int_digits].
  - by intros [= <-].
  - destruct (digit_of c) as [d|] eqn:Hd; [|done]. intros Hn.
    pose proof (digit_of_range c d Hd) as Hr.
    rewrite (IH (10 * acc + d)%Z rest n ltac:(lia) Hn).
    rewrite pretty_N_go_step by lia.
    assert (Hq : (Z.to_N (10 * acc + d) `div` 10 = Z.to_N acc)%N).
    { symmetry. apply (N.div_unique _ _ _ (Z.to_N d)); lia. }
    assert (Hm : (Z.to_N (10 * acc + d) `mod` 10 = Z.to_N d)%N).
    { symmetry. apply (N.mod_unique _ _ (Z.to_N acc)); lia. }
    rewrite Hq, Hm. by rewrite (pretty_N_char_of_digit c d).
Qed.

Lemma py_str_py_int s n :
  RecordConverter.regex s = true -> canonical s = true ->
  py_int s = Some n -> py_str n = s.
Proof.
  destruct s as [|c s]; [done|]. intros Hs Hc. unfold py_int. cbn [int_digits].
  cbn in Hs. apply andb_true_iff in Hs as [Hd Hs].
  destruct (is_digit_Some c Hd) as (d & Hdc & Hr). rewrite Hdc.
  replace (10 * 0 + d)%Z with d by lia. intros Hn.
  pose proof (pretty_N_char_of_digit c d Hdc) as Hchar.
  destruct (decide (d = 0%Z)) as [->|Hd0].
  - cbn in Hchar. subst c. destruct s as [|c' s']; [|done].
    cbn in Hn. by injection Hn as <-.
  - pose proof (int_digits_ge s d n Hn ltac:(lia)) as Hge.
    destruct n as [|p|p]; [lia| |lia].
    unfold py_str, pretty, pretty_Z, pretty, pretty_positive, pretty, pretty_N.
    rewrite decide_False by done.
    change (N.pos p) with (Z.to_N (Z.pos p)).
    rewrite (pretty_N_go_int_digits s d "" (Z.pos p)) by (done || lia).
    rewrite string_app_nil_r, pretty_N_go_step by lia.
    assert (Hq : (Z.to_N d `div` 10 = 0)%N) by (apply N.div_small; lia).
    assert (Hm : (Z.to_N d `mod` 10 = Z.to_N d)%N) by (apply N.mod_small; lia).
    by rewrite Hq, Hm, pretty_N_go_0, Hchar.
Qed.

Lemma split_empty_field_inside a : ∀ cur b,
  "" ∈ split_comma_aux cur (a +:+ String "," (String "," b)).
Proof.
  induction a as [|c a IH]; intros cur b.
  - cbn. apply list_elem_of_further, list_elem_of_here.
  - rewrite string_app_cons. cbn. destruct (Ascii.eqb c ","); [apply list_elem_of_further|]; apply IH.
Qed.

Lemma split_empty_field_last a : ∀ cur,
  "" ∈ split_comma_aux cur (a +:+ ",").
Proof.
  induction a as [|c a IH]; intros cur.
  - cbn. apply list_elem_of_further, list_elem_of_here.
  - rewrite string_app_cons. cbn. destruct (Ascii.eqb c ","); [apply list_elem_of_further|]; apply IH.
Qed.

Lemma mapM_py_int_empty l : "" ∈ l -> mapM py_int l = None.
Proof.
  intros Hin. apply mapM_None_2, Exists_exists. by exists "".
Qed.

(** X17.  Every non-empty text of at most 640 ASCII decimal digits, one
    of the texts the pattern of [record] accepts, is converted: the result
    is a reference of the converter's model over one id that is not
    negative. *)
Theorem X17_record_digits_convert (model value : string) :
  RecordConverter.regex value = true ->
  String.length value ≤ 640 ->
  ∃ id, (0 <= id)%Z ∧
        RecordConverter.to_python model value = Some (_RecordProxy model id).
Proof.
  intros Hv _. destruct (py_int_regex value Hv) as (n & Hn & Hn0).
  exists n. split; [done|]. unfold RecordConverter.to_python. by rewrite Hn.
Qed.

Lemma X17_witness :
  ∃ id, (0 <= id)%Z ∧
        RecordConverter.to_python "res.user" "0042"
          = Some (_RecordProxy "res.user" id).
Proof.
  apply (X17_record_digits_convert "res.user" "0042"); [reflexivity|cbn; lia].
Defined.



Lemma record_text_round_trip (model value : string) :
  RecordConverter.regex value = true ->
  canonical value = true ->
  RecordConverter.to_python model value ≫= RecordConverter.to_url = Some value.
Proof.
  intros Hv Hc. destruct (py_int_regex value Hv) as (n & Hn & _).
  unfold RecordConverter.to_python. rewrite Hn. cbn.
  unfold RecordConverter.to_url. cbn. f_equal. by apply py_str_py_int.
Qed.

(** X19.  A non-empty text of at most 640 ASCII decimal digits without a
    superfluous leading zero is written back unchanged: converting it to a
    reference and the reference to a URL gives the text again. *)
Theorem X19_record_canonical_digits_round_trip (model value : string) :
  RecordConverter.regex value = true ->
  canonical value = true ->
  String.length value ≤ 640 ->
  RecordConverter.to_python model value ≫= RecordConverter.to_url = Some value.
Proof. intros Hv Hc _. by apply record_text_round_trip. Qed.

Lemma X19_witness :
  RecordConverter.to_python "res.user" "90210" ≫= RecordConverter.to_url
    = Some "90210".
Proof.
  apply (X19_record_canonical_digits_round_trip "res.user" "90210");
    [reflexivity|reflexivity|cbn; lia].
Defined.

(** X20.  A leading zero is ignored: a non-empty text of fewer than 640
    ASCII decimal digits names the same record when a zero is written in
    front of it; and when the text itself has no superfluous leading
    zero, the reference converted from the longer text is written back as
    the text without the added zero. *)
Theorem X20_record_leading_zero (model value : string) :
  RecordConverter.regex value = true ->
  String.length value < 640 ->
  RecordConverter.regex (String "0" value) = true ∧
  RecordConverter.to_python model (String "0" value)
    = RecordConverter.to_python model value ∧
  (canonical value = true ->
   RecordConverter.to_python model (String "0" value) ≫= RecordConverter.to_url
     = Some value).
Proof.
  intros Hv _.
  assert (He : RecordConverter.to_python model (String "0" value)
               = RecordConverter.to_python model value).
  { unfold RecordConverter.to_python, py_int. cbn [int_digits].
    change (digit_of "0") with (Some 0%Z). cbv iota.
    by destruct value. }
  split; [by destruct value|]. split; [done|].
  intros Hc. rewrite He. by apply record_text_round_trip.
Qed.

Lemma X20_witness :
  RecordConverter.regex (String "0" "42") = true ∧
  RecordConverter.to_python "res.user" (String "0" "42")
    = RecordConverter.to_python "res.user" "42" ∧
  (canonical "42" = true ->
   RecordConverter.to_python "res.user" (String "0" "42") ≫= RecordConverter.to_url
     = Some "42").
Proof.
  apply (X20_record_leading_zero "res.user" "42"); [reflexivity|cbn; lia].
Defined.

Lemma split_nonempty s : ∀ cur, split_comma_aux cur s ≠ [].
Proof.
  induction s as [|c s IH]; intros cur; cbn; [done|].
  destruct (Ascii.eqb c ","); [done|apply IH].
Qed.

(** X21.  Every text of at most 640 characters made of non-empty runs of
    ASCII decimal digits separated by single commas, one of the texts the
    pattern of [records] accepts, is converted: the result is a reference
    of the converter's model over a non-empty list of ids, none of them
    negative, one for each comma-separated field. *)
Theorem X21_records_digits_convert (model value : string) :
  RecordsConverter.regex value = true ->
  String.length value ≤ 640 ->
  ∃ ids, ids ≠ [] ∧ Forall (λ i, 0 <= i)%Z ids ∧
         length ids = length (split_comma value) ∧
         RecordsConverter.to_python model value = Some (_RecordsProxy model ids).
Proof.
  intros Hv _.
  assert (Hf : Forall (λ f, RecordConverter.regex f = true) (split_comma value)).
  { by apply (regex_split value "" true). }
  destruct (mapM_py_int_regex _ Hf) as (ids & Hids & Hpos & Hlen).
  exists ids. split; [|split; [done|split; [done|]]].
  - intros ->. pose proof (split_nonempty value "") as Hne.
    unfold split_comma in Hlen. by destruct (split_comma_aux "" value).
  - unfold RecordsConverter.to_python. by rewrite Hids.
Qed.

Lemma X21_witness :
  ∃ ids, ids ≠ [] ∧ Forall (λ i, 0 <= i)%Z ids ∧
         length ids = length (split_comma "12,007,3") ∧
         RecordsConverter.to_python "res.user" "12,007,3"
           = Some (_RecordsProxy "res.user" ids).
Proof.
  apply (X21_records_digits_convert "res.user" "12,007,3"); [reflexivity|cbn; lia].
Defined.



(** X23.  A text with an empty field is not converted by [records]: the
    conversion fails on the empty text, on a text that starts or ends with
    a comma, and on a text with two commas in a row, whatever else the
    text holds. *)
Theorem X23_records_empty_field_fails (model : string) :
  RecordsConverter.to_python model "" = None ∧
  (∀ s, RecordsConverter.to_python model (String "," s) = None) ∧
  (∀ s, RecordsConverter.to_python model (s +:+ ",") = None) ∧
  (∀ a b, RecordsConverter.to_python model (a +:+ ",," +:+ b) = None).
Proof.
  unfold RecordsConverter.to_python, split_comma.
  split; [done|]. split; [done|]. split.
  - intros s. by rewrite mapM_py_int_empty by apply split_empty_field_last.
  - intros a b. by rewrite mapM_py_int_empty by apply split_empty_field_inside.
Qed.

(** ** Setting the extension up *)

Lemma setdefault_spec k v (d : dict) x d' :
  setdefault k v d = (x, d') ->
  d' !! k = Some x ∧
  ∀ k', d' !! k' = match d !! k' with
                   | Some y => Some y
                   | None => if bool_decide (k' = k) then Some v else None
                   end.
Proof.
  unfold setdefault. destruct (d !! k) as [y|] eqn:Hk; intros [= <- <-].
  - split; [done|]. intros k'. destruct (d !! k') eqn:Hk'; [done|].
    rewrite bool_decide_eq_false_2; [done|]. intros ->. congruence.
  - split; [apply lookup_insert_eq|]. intros k'.
    destruct (decide (k' = k)) as [->|Hne].
    + by rewrite lookup_insert_eq, Hk, bool_decide_eq_true_2.
    + by rewrite lookup_insert_ne, bool_decide_eq_false_2 by done; destruct (d !! k').
Qed.

(** [init_app] in terms of the configuration it leaves. *)
Lemma init_app_run retry self app w :
  ∃ user configfile config3,
    (∀ k, config3 !! k = match Setup.config app !! k with
                         | Some v => Some v
                         | None => Setup.config_default k
                         end) ∧
    Setup.init_app retry self app w =
      let database := Setup.configured_database app in
      if Setup.pool_fails database w then
        Setup.mkResult (Some (AttributeError "name"))
          (Setup.mkTryton (Setup.context_callback self) (Some retry)
             (Setup._configure_jinja self) (Setup.pool self))
          (Setup.mkFlask config3 (Setup.extensions app) (Setup.converters app)
             (Setup.filters app))
          [Setup.update_etc configfile; Setup.Pool database]
      else
      let self1 := Setup.mkTryton (Setup.context_callback self) (Some retry)
                     (Setup._configure_jinja self) (Some database) in
      let scope :=
        conditional_transaction_for_tests (Setup.database_name database)
          (Setup.user_id user) (Some true) None (ret tt) w in
      let before :=
        [Setup.update_etc configfile; Setup.Pool database]
          ++ map Setup.in_scope (trace scope) in
      match outcome scope with
      | Raise e =>
          Setup.mkResult (Some e) self1
            (Setup.mkFlask config3 (Setup.extensions app) (Setup.converters app)
               (Setup.filters app)) before
      | Ok _ =>
          Setup.mkResult None self1
            (Setup.mkFlask config3
               (Some (<["Tryton" := Setup.TrytonExtension self1]>
                        (default ∅ (Setup.extensions app))))
               (<["records" := "RecordsConverter"]>
                  (<["record" := "RecordConverter"]> (Setup.converters app)))
               (if Setup._configure_jinja self
                then <["numberformat" := "format_number"]>
                       (<["dateformat" := "format_date"]>
                          (<["currencyformat" := "format_currency"]>
                             (<["timedeltaformat" := "format_timedelta"]>
                                (Setup.filters app))))
                else Setup.filters app))
            (before ++ [Setup.pool_init database])
      end.
Proof.
  unfold Setup.init_app, Setup.configured_database.
  destruct (setdefault "TRYTON_DATABASE" VNone (Setup.config app))
    as [database config1] eqn:E1.
  destruct (setdefault "TRYTON_USER" (VInt 0) config1) as [user config2] eqn:E2.
  destruct (setdefault "TRYTON_CONFIG" VNone config2) as [configfile config3] eqn:E3.
  assert (Hdb : database = default VNone (Setup.config app !! "TRYTON_DATABASE")).
  { unfold setdefault in E1.
    by destruct (Setup.config app !! "TRYTON_DATABASE"); injection E1 as <- _. }
  apply setdefault_spec in E1 as [H1 K1], E2 as [H2 K2], E3 as [H3 K3].
  exists user, configfile, config3. rewrite <- Hdb.
  split; [|reflexivity].
  intros k. rewrite K3, K2, K1. unfold Setup.config_default.
  destruct (Setup.config app !! k); [done|].
  repeat case_bool_decide; simplify_eq; done.
Qed.

Lemma configured_database_lookup retry self app w :
  Setup.config (Setup.app (Setup.init_app retry self app w)) !! "TRYTON_DATABASE"
    = Some (Setup.configured_database app).
Proof.
  destruct (init_app_run retry self app w)
    as (user & configfile & config3 & Hcfg & ->).
  cbv zeta.
  assert (H : config3 !! "TRYTON_DATABASE" = Some (Setup.configured_database app)).
  { rewrite Hcfg. unfold Setup.configured_database.
    by destruct (Setup.config app !! "TRYTON_DATABASE"). }
  destruct (Setup.pool_fails _ _); [done|].
  by destruct (outcome (conditional_transaction_for_tests _ _ _ _ _ _)).
Qed.

Lemma started_in_tests w :
  need_new_transaction w = false ->
  ∀ database, Setup.pool_fails database w = false.
Proof.
  unfold need_new_transaction, truthy_int, Setup.pool_fails, Setup.started.
  intros H database. apply orb_false_iff in H as [_ H].
  destruct (user (txn w)); [by destruct database|done].
Qed.

(** X24.  Outside the test mode [init_app] fails before anything is
    registered.  When no database is configured and no transaction is
    started, [Pool(None)] fails with [AttributeError] and the attribute
    [pool] is not set; otherwise the pool is set and opening the
    transaction scope fails with [NameError].  Either way [pool.init()] is
    never called, the application is left without the extension, the
    converters and the template filters, and the retry count is already
    set on the object.  Constructing the extension with an application
    fails the same way. *)
Theorem X24_init_app_outside_tests retry self app w :
  need_new_transaction w = true ->
  Setup.raised (Setup.init_app retry self app w)
    = Some (if Setup.pool_fails (Setup.configured_database app) w
            then AttributeError "name" else NameError "database") ∧
  Setup.pool (Setup.self (Setup.init_app retry self app w))
    = (if Setup.pool_fails (Setup.configured_database app) w
       then Setup.pool self else Some (Setup.configured_database app)) ∧
  Setup.extensions (Setup.app (Setup.init_app retry self app w))
    = Setup.extensions app ∧
  Setup.converters (Setup.app (Setup.init_app retry self app w))
    = Setup.converters app ∧
  Setup.filters (Setup.app (Setup.init_app retry self app w))
    = Setup.filters app ∧
  Forall (λ c, Setup.is_pool_init c = false)
    (Setup.calls (Setup.init_app retry self app w)) ∧
  Setup.database_retry (Setup.self (Setup.init_app retry self app w))
    = Some retry ∧
  (∀ configure_jinja, ∃ r,
     Setup.__init__ retry (Some app) configure_jinja w = inr r ∧
     Setup.raised r
       = Some (if Setup.pool_fails (Setup.configured_database app) w
               then AttributeError "name" else NameError "database") ∧
     Setup.pool (Setup.self r)
       = (if Setup.pool_fails (Setup.configured_database app) w
          then None else Some (Setup.configured_database app))).
Proof.
  intros Hn.
  assert (H : ∀ self0,
    Setup.raised (Setup.init_app retry self0 app w)
      = Some (if Setup.pool_fails (Setup.configured_database app) w
              then AttributeError "name" else NameError "database") ∧
    Setup.pool (Setup.self (Setup.init_app retry self0 app w))
      = (if Setup.pool_fails (Setup.configured_database app) w
         then Setup.pool self0 else Some (Setup.configured_database app)) ∧
    Setup.extensions (Setup.app (Setup.init_app retry self0 app w))
      = Setup.extensions app ∧
    Setup.converters (Setup.app (Setup.init_app retry self0 app w))
      = Setup.converters app ∧
    Setup.filters (Setup.app (Setup.init_app retry self0 app w))
      = Setup.filters app ∧
    Forall (λ c, Setup.is_pool_init c = false)
      (Setup.calls (Setup.init_app retry self0 app w)) ∧
    Setup.database_retry (Setup.self (Setup.init_app retry self0 app w))
      = Some retry).
  { intros self0.
    destruct (init_app_run retry self0 app w)
      as (user & configfile & config3 & _ & ->).
    cbv zeta. destruct (Setup.pool_fails (Setup.configured_database app) w).
    - cbn. repeat split; try done. by repeat constructor.
    - rewrite scope_aborts by done. cbn.
      repeat split; try done. by repeat constructor. }
  destruct (H self) as (? & ? & ? & ? & ? & ? & ?).
  repeat split; try done.
  intros configure_jinja. eexists. split; [reflexivity|].
  split; apply H.
Qed.

Lemma X24_witness :
  Setup.raised
    (Setup.init_app 5 (Setup.mkTryton None None true None)
       (Setup.mkFlask ∅ None ∅ ∅) (mkWorld true None (mkTransaction None false false []) 0))
    = Some (AttributeError "name") ∧
  Setup.pool
    (Setup.self
       (Setup.init_app 5 (Setup.mkTryton None None true None)
          (Setup.mkFlask ∅ None ∅ ∅)
          (mkWorld true None (mkTransaction None false false []) 0)))
    = None.
Proof.
  pose proof (X24_init_app_outside_tests 5 (Setup.mkTryton None None true None)
                (Setup.mkFlask ∅ None ∅ ∅)
                (mkWorld true None (mkTransaction None false false []) 0) eq_refl)
    as (H1 & H2 & _).
  split; [exact H1|exact H2].
Defined.

(** X25.  In the test mode [init_app] succeeds: it calls [pool.init()]
    once, as its last call on the collaborators, on the pool of the
    configured database; it registers the object under ['Tryton'] and the
    two converters under ['record'] and ['records'], and keeps every other
    extension and converter of the application; the template filters are
    changed only if the object was built with [configure_jinja]. *)
Theorem X25_init_app_in_tests retry self app w :
  need_new_transaction w = false ->
  Setup.raised (Setup.init_app retry self app w) = None ∧
  (∃ database,
     Setup.config (Setup.app (Setup.init_app retry self app w)) !! "TRYTON_DATABASE"
       = Some database ∧
     Setup.pool (Setup.self (Setup.init_app retry self app w)) = Some database ∧
     List.filter Setup.is_pool_init (Setup.calls (Setup.init_app retry self app w))
       = [Setup.pool_init database] ∧
     last (Setup.calls (Setup.init_app retry self app w))
       = Some (Setup.pool_init database)) ∧
  Setup.database_retry (Setup.self (Setup.init_app retry self app w)) = Some retry ∧
  (∃ exts,
     Setup.extensions (Setup.app (Setup.init_app retry self app w)) = Some exts ∧
     exts !! "Tryton"
       = Some (Setup.TrytonExtension (Setup.self (Setup.init_app retry self app w))) ∧
     ∀ k, k ≠ "Tryton" -> exts !! k = default ∅ (Setup.extensions app) !! k) ∧
  Setup.converters (Setup.app (Setup.init_app retry self app w)) !! "record"
    = Some "RecordConverter" ∧
  Setup.converters (Setup.app (Setup.init_app retry self app w)) !! "records"
    = Some "RecordsConverter" ∧
  (∀ k, k ≠ "record" -> k ≠ "records" ->
     Setup.converters (Setup.app (Setup.init_app retry self app w)) !! k
       = Setup.converters app !! k) ∧
  (Setup._configure_jinja self = false ->
     Setup.filters (Setup.app (Setup.init_app retry self app w))
       = Setup.filters app).
Proof.
  intros Hn.
  pose proof (configured_database_lookup retry self app w) as Hdb.
  destruct (init_app_run retry self app w)
    as (user & configfile & config3 & _ & Hrun).
  rewrite Hrun in Hdb |- *. clear Hrun. cbv zeta in Hdb |- *.
  rewrite (started_in_tests w Hn) in Hdb |- *.
  rewrite scope_runs in Hdb |- * by done. cbn in Hdb |- *.
  split; [done|]. split.
  { exists (Setup.configured_database app). by repeat split. }
  split; [done|]. split.
  { eexists. split; [reflexivity|]. split; [apply lookup_insert_eq|].
    intros k Hk. by rewrite lookup_insert_ne. }
  split; [by rewrite lookup_insert_ne, lookup_insert_eq|].
  split; [apply lookup_insert_eq|]. split.
  - intros k H1 H2. by rewrite !lookup_insert_ne.
  - by intros ->.
Qed.

Lemma X25_witness :
  Setup.raised
    (Setup.init_app 5 (Setup.mkTryton None None false None)
       (Setup.mkFlask (<["TRYTON_DATABASE" := VStr "db"]> ∅) None ∅ ∅)
       (sample_world false true))
    = None ∧
  Setup.converters
    (Setup.app
       (Setup.init_app 5 (Setup.mkTryton None None false None)
          (Setup.mkFlask (<["TRYTON_DATABASE" := VStr "db"]> ∅) None ∅ ∅)
          (sample_world false true))) !! "record"
    = Some "RecordConverter".
Proof.
  pose proof (X25_init_app_in_tests 5 (Setup.mkTryton None None false None)
                (Setup.mkFlask (<["TRYTON_DATABASE" := VStr "db"]> ∅) None ∅ ∅)
                (sample_world false true) eq_refl)
    as (H1 & _ & _ & _ & H2 & _).
  split; [exact H1|exact H2].
Defined.

(** X26.  [init_app] never overwrites the configuration: whether it
    succeeds or fails, every key the application had configured keeps its
    value, the three keys ['TRYTON_DATABASE'], ['TRYTON_USER'] and
    ['TRYTON_CONFIG'] get the defaults [None], [0] and [None] where they
    were missing, and no other key is added. *)
Theorem X26_init_app_keeps_configuration retry self app w k :
  Setup.config (Setup.app (Setup.init_app retry self app w)) !! k
    = match Setup.config app !! k with
      | Some v => Some v
      | None => Setup.config_default k
      end.
Proof.
  destruct (init_app_run retry self app w)
    as (user & configfile & config3 & Hcfg & ->).
  cbv zeta. rewrite <- Hcfg.
  destruct (Setup.pool_fails _ _); [done|].
  by destruct (outcome (conditional_transaction_for_tests _ _ _ _ _ _)).
Qed.

(** ** What the decorator's arguments change *)

Section SameBut.
Variable hide : Event -> bool.
Hypothesis hide_enter : ∀ db u ro ctx, hide (EvEnter db u ro ctx) = true.

Lemma effects_app t1 t2 :
  effects hide (t1 ++ t2) = effects hide t1 ++ effects hide t2.
Proof. apply List.filter_app. Qed.

Lemma effects_hidden t :
  Forall (λ ev, hide ev = true) t -> effects hide t = [].
Proof.
  induction 1 as [|ev t Hev _ IH]; [done|]. unfold effects in *. cbn.
  by rewrite Hev.
Qed.

Lemma same_but_refl {A} (r : Run A) : same_but hide r r.
Proof. by repeat split. Qed.

Lemma bind_cong {A B} (m1 m2 : M A) (k1 k2 : A -> M B) w :
  same_but hide (m1 w) (m2 w) ->
  (∀ a w', same_but hide (k1 a w') (k2 a w')) ->
  same_but hide (bind m1 k1 w) (bind m2 k2 w).
Proof.
  intros (Ho & Hf & Ht) Hk. unfold bind. cbv zeta. rewrite <- Ho, <- Hf.
  destruct (outcome (m1 w)) as [a|e]; [|by repeat split].
  destruct (Hk a (final (m1 w))) as (Ho' & Hf' & Ht').
  repeat split; cbn [outcome final trace]; [done|done|].
  by rewrite !effects_app, Ht, Ht'.
Qed.

Lemma bind_cong_values {A B} (m1 m2 : M A) (k1 k2 : A -> M B) w a1 a2 w1 t1 t2 :
  m1 w = mkRun (Ok a1) w1 t1 -> m2 w = mkRun (Ok a2) w1 t2 ->
  effects hide t1 = effects hide t2 ->
  same_but hide (k1 a1 w1) (k2 a2 w1) ->
  same_but hide (bind m1 k1 w) (bind m2 k2 w).
Proof.
  intros H1 H2 Ht (Ho' & Hf' & Ht'). unfold bind. rewrite H1, H2. cbv zeta.
  cbn [outcome final trace]. repeat split; cbn [outcome final trace]; [done|done|].
  by rewrite !effects_app, Ht, Ht'.
Qed.

Lemma try_cong {A} (m1 m2 : M A) (h1 h2 : exn -> M A) w :
  same_but hide (m1 w) (m2 w) ->
  (∀ e w', same_but hide (h1 e w') (h2 e w')) ->
  same_but hide (try_except m1 h1 w) (try_except m2 h2 w).
Proof.
  intros Hm Hh. pose proof Hm as (Ho & Hf & Ht).
  unfold try_except. cbv zeta. rewrite <- Ho, <- Hf.
  destruct (outcome (m1 w)) as [a|e]; [exact Hm|].
  destruct (Hh e (final (m1 w))) as (Ho' & Hf' & Ht').
  repeat split; cbn [outcome final trace]; [done|done|].
  by rewrite !effects_app, Ht, Ht'.
Qed.

Lemma scope_cong {A} db1 u1 ro1 c1 db2 u2 ro2 c2 (body1 body2 : M A) w :
  same_but hide (body1 w) (body2 w) ->
  same_but hide (conditional_transaction_for_tests db1 u1 ro1 c1 body1 w)
                (conditional_transaction_for_tests db2 u2 ro2 c2 body2 w).
Proof.
  intros (Ho & Hf & Ht). destruct (need_new_transaction w) eqn:Hn.
  - rewrite !scope_aborts by done. repeat split. unfold effects. cbn.
    by rewrite !hide_enter.
  - rewrite !scope_runs by done. repeat split; cbn [outcome final trace]; [done|done|].
    unfold effects in *. cbn. by rewrite !hide_enter.
Qed.

Lemma retry_loop_cong (func1 func2 : M value) counts :
  (∀ w, same_but hide (func1 w) (func2 w)) ->
  ∀ w, same_but hide (retry_loop func1 counts w) (retry_loop func2 counts w).
Proof.
  intros Hf. induction counts as [|c rest IH]; intros w; [apply same_but_refl|].
  cbn [retry_loop]. apply try_cong; [apply Hf|]. intros e w'.
  destruct (is_conflict e); [|apply same_but_refl].
  apply bind_cong; [apply same_but_refl|]. intros w0 w''.
  destruct (negb (c =? 0)%Z && negb (readonly (txn w0))); [apply IH|apply same_but_refl].
Qed.

Lemma build_context_user app u1 u2 context w :
  same_but hide (build_context app u1 context w) (build_context app u2 context w).
Proof.
  unfold build_context. apply bind_cong; [|intros; apply same_but_refl].
  destruct (bool_decide (is_Some (context_callback (extension app)))
            || context_truthy context); [|apply same_but_refl].
  apply scope_cong, same_but_refl.
Qed.

Lemma wrapper_user app readonly u1 u2 context func args kwargs w :
  same_but hide (wrapper app readonly u1 context func args kwargs w)
                (wrapper app readonly u2 context func args kwargs w).
Proof.
  unfold wrapper. apply bind_cong; [apply same_but_refl|]. intros _ w1.
  destruct (resolve_user_run app u1 w1) as [x1 H1].
  destruct (resolve_user_run app u2 w1) as [x2 H2].
  eapply bind_cong_values; [exact H1|exact H2|done|].
  apply bind_cong; [apply same_but_refl|]. intros ro w2.
  apply bind_cong; [apply build_context_user|]. intros ctx w3.
  apply bind_cong; [|intros; apply same_but_refl].
  apply scope_cong, same_but_refl.
Qed.

Lemma wrapper_outside_tests_enter app readonly user context func args kwargs w :
  need_new_transaction w = true ->
  ∃ pre,
    wrapper app readonly user context func args kwargs w
      = mkRun (Raise (NameError "database")) w pre ∧
    Forall (λ ev, is_enter ev = true) pre.
Proof.
  intros Hn. unfold wrapper, when.
  destruct (tuple_lt (trytond_version app) [5; 1]%Z).
  { eexists. erewrite bind_raise by (by apply scope_aborts).
    split; [reflexivity|by repeat constructor]. }
  erewrite bind_ok by reflexivity. run_norm.
  destruct (resolve_user_run app user w) as [u Hu].
  destruct (resolve_readonly_run readonly w) as [ro Hro].
  erewrite bind_ok by exact Hu. run_norm.
  erewrite bind_ok by exact Hro. run_norm. cbn [List.app].
  unfold build_context.
  destruct (bool_decide (is_Some (context_callback (extension app)))
            || context_truthy context).
  - eexists. erewrite bind_raise.
    2:{ erewrite bind_raise by (by apply scope_aborts). reflexivity. }
    split; [reflexivity|by repeat constructor].
  - eexists. erewrite bind_ok.
    2:{ erewrite bind_ok by reflexivity. run_norm. reflexivity. }
    run_norm. erewrite bind_raise by (by apply scope_aborts).
    split; [reflexivity|]. cbn. by repeat constructor.
Qed.

Lemma build_context_in_tests app u context w :
  need_new_transaction w = false ->
  (∀ v, configured_context app context w !! "_request" = Some v -> ∃ d, v = VDict d) ->
  ∃ ctx pre, build_context app u context w = mkRun (Ok ctx) w pre ∧
             Forall (λ ev, is_enter ev = true) pre.
Proof.
  intros Hn Hwf. unfold build_context. unfold configured_context in Hwf.
  destruct (bool_decide (is_Some (context_callback (extension app)))
            || context_truthy context).
  - set (base := dict_update _ _) in Hwf.
    set (body := (transaction_context <- _ ;; _ <- _ ;; _)%py).
    assert (Hbody : body w = mkRun (Ok base) w []).
    { unfold base, body, bind, context_value, get_value, bind, get, ret.
      by destruct (context_callback (extension app)), context as [[?|?]|]. }
    erewrite bind_ok
      by (rewrite scope_runs by done; rewrite Hbody; reflexivity).
    run_norm. unfold add_request, bind, get. run_norm.
    destruct (base !! "_request") as [v|] eqn:Hv.
    + destruct (Hwf v eq_refl) as [d ->]. do 2 eexists.
      split; [reflexivity|]. cbn. by repeat constructor.
    + do 2 eexists. split; [reflexivity|]. cbn. by repeat constructor.
  - erewrite bind_ok by reflexivity. run_norm.
    unfold add_request, bind, get. run_norm. rewrite lookup_empty.
    do 2 eexists. split; [reflexivity|]. by constructor.
Qed.

End SameBut.

Lemma wrapper_context_argument app readonly user c1 c2 func args kwargs w :
  request_well_formed app c1 -> request_well_formed app c2 ->
  same_but is_enter (wrapper app readonly user c1 func args kwargs w)
                    (wrapper app readonly user c2 func args kwargs w).
Proof.
  intros Hc1 Hc2. destruct (need_new_transaction w) eqn:Hn.
  - destruct (wrapper_outside_tests_enter app readonly user c1 func args kwargs w Hn)
      as (pre1 & -> & Hp1).
    destruct (wrapper_outside_tests_enter app readonly user c2 func args kwargs w Hn)
      as (pre2 & -> & Hp2).
    repeat split. cbn [trace]. by rewrite !effects_hidden.
  - unfold wrapper.
    assert (H0 : ∃ pre0,
      when (tuple_lt (trytond_version app) [5; 1]%Z)
        (conditional_transaction_for_tests (TRYTON_DATABASE app) 0 None None
           (emit (EvCacheClean (TRYTON_DATABASE app)))) w
        = mkRun (Ok tt) w pre0).
    { unfold when. destruct (tuple_lt _ _); [|by exists []].
      eexists. by rewrite scope_runs by done. }
    destruct H0 as (pre0 & H0).
    destruct (resolve_user_run app user w) as [u Hu].
    destruct (resolve_readonly_run readonly w) as [ro Hro].
    destruct (build_context_in_tests app u c1 w Hn (Hc1 w)) as (x1 & p1 & Hx1 & Hp1).
    destruct (build_context_in_tests app u c2 w Hn (Hc2 w)) as (x2 & p2 & Hx2 & Hp2).
    eapply bind_cong_values; [exact H0|exact H0|done|].
    eapply bind_cong_values; [exact Hu|exact Hu|done|].
    eapply bind_cong_values; [exact Hro|exact Hro|done|].
    eapply bind_cong_values; [exact Hx1|exact Hx2|by rewrite !effects_hidden|].
    apply bind_cong; [|intros; apply same_but_refl].
    apply scope_cong; [done|apply same_but_refl].
Qed.

(** X27.  The decorator's [user] argument has no effect on what a call
    does: whatever user is given, as a value, as a callable or not at
    all, the call ends with the same result or error, in the same ambient
    state, after the same calls of the handler and of the runtime; only
    the label of the scopes it enters differs. *)
Theorem X27_user_argument_is_ignored
    app ro_arg user1 user2 ctx_arg func args kwargs w :
  same_but is_enter
    (transaction app ro_arg user1 ctx_arg func args kwargs w)
    (transaction app ro_arg user2 ctx_arg func args kwargs w).
Proof.
  unfold transaction, retry_transaction. apply retry_loop_cong.
  intros w'. by apply wrapper_user.
Qed.

(** X28.  The transaction context has no effect on what a call does:
    with any two contexts given to the decorator whose ['_request'] entry,
    if present, is a mapping, the call ends with the same result or error,
    in the same ambient state, after the same calls of the handler and of
    the runtime. *)
Theorem X28_context_argument_is_ignored
    app ro_arg user_arg context1 context2 func args kwargs w :
  request_well_formed app context1 ->
  request_well_formed app context2 ->
  same_but is_enter
    (transaction app ro_arg user_arg context1 func args kwargs w)
    (transaction app ro_arg user_arg context2 func args kwargs w).
Proof.
  intros H1 H2. unfold transaction, retry_transaction.
  apply retry_loop_cong. intros w'. by apply wrapper_context_argument.
Qed.

Lemma X28_witness :
  same_but is_enter
    (transaction (sample_app 3) (Some (Literal false)) None None
       (queues [4; 8]%Z) [] [] (sample_world false true))
    (transaction (sample_app 3) (Some (Literal false)) None
       (Some (Literal (<["company" := VInt 2]> tenant_context)))
       (queues [4; 8]%Z) [] [] (sample_world false true)).
Proof.
  apply (X28_context_argument_is_ignored (sample_app 3) (Some (Literal false)) None
           None (Some (Literal (<["company" := VInt 2]> tenant_context)))).
  - intros w v H. vm_compute in H. discriminate H.
  - intros w v H. vm_compute in H. injection H as <-. by eexists.
Defined.

Lemma scope_body_readonly hide app ro1 ro2 func args kwargs w :
  hide EvCommit = true ->
  same_but hide (scope_body app ro1 func args kwargs w)
                (scope_body app ro2 func args kwargs w).
Proof.
  intros Hc. unfold scope_body.
  apply bind_cong; [|intros; apply same_but_refl].
  apply try_cong; [|intros; apply same_but_refl].
  apply bind_cong; [apply same_but_refl|]. intros args' w1.
  apply bind_cong; [apply same_but_refl|]. intros kwargs' w2.
  apply bind_cong; [apply same_but_refl|]. intros result w3.
  apply bind_cong; [apply same_but_refl|]. intros w0 w4.
  apply bind_cong; [|intros; apply same_but_refl].
  unfold when, emit, ret, effects.
  destruct (cursor (txn w0) && negb ro1), (cursor (txn w0) && negb ro2);
    repeat split; cbn; by rewrite ?Hc.
Qed.

Lemma wrapper_readonly hide app ro1 ro2 user context func args kwargs w :
  (∀ db u ro ctx, hide (EvEnter db u ro ctx) = true) ->
  hide EvCommit = true ->
  same_but hide (wrapper app ro1 user context func args kwargs w)
                (wrapper app ro2 user context func args kwargs w).
Proof.
  intros He Hc. unfold wrapper.
  apply bind_cong; [apply same_but_refl|]. intros _ w1.
  apply bind_cong; [apply same_but_refl|]. intros u w2.
  destruct (resolve_readonly_run ro1 w2) as [x1 H1].
  destruct (resolve_readonly_run ro2 w2) as [x2 H2].
  eapply bind_cong_values; [exact H1|exact H2|done|].
  apply bind_cong; [apply same_but_refl|]. intros ctx w3.
  apply bind_cong; [|intros; apply same_but_refl].
  apply scope_cong; [done|]. by apply scope_body_readonly.
Qed.

(** X29.  The decorator's [readonly] argument decides whether the call
    commits and nothing else: whatever flag is given, the call ends with
    the same result or error, in the same ambient state, after the same
    calls of the handler, the same cache hooks and the same submitted
    tasks; the handler itself runs in the ambient transaction either
    way. *)
Theorem X29_readonly_argument_only_decides_commit
    app readonly1 readonly2 user_arg ctx_arg func args kwargs w :
  same_but (fun ev => is_enter ev || is_commit ev)
    (transaction app readonly1 user_arg ctx_arg func args kwargs w)
    (transaction app readonly2 user_arg ctx_arg func args kwargs w).
Proof.
  unfold transaction, retry_transaction. apply retry_loop_cong.
  intros w'. by apply wrapper_readonly.
Qed.

(** * The default of the read-only flag *)





(** * The context object between calls *)


